(** * The HTTP responder of [src/index.js]

    [src/index.js] is an Express application of five statements:

    <<
      const express = require('express');
      const app = express();
      const PORT = 3000; // You can change the port if needed
      app.get('/', (req, res) => { res.send('Hello World! I am new here 🚀'); });
      app.listen(PORT, () => { console.log(`Server is running on http://localhost:${PORT}`); });
    >>

    The file is embedded below statement by statement ([PORT], [greeting],
    [root_handler], [app], [main]).  What those statements mean is fixed by
    the Express library they call, so the part of Express that the program
    exercises is embedded first, function by function, from the 4.x line
    and under the names the library uses: the router ([app_get], [router_handle],
    [handles_method], [route_dispatch], [sendOptionsResponse]), the response
    object ([setHeader], [res_send]), and the packages [res.send] and the
    router's last resort rely on ([etag], [fresh], [finalhandler],
    [encodeUrl], [escapeHtml]).  The places where later versions answer
    differently are named at the definitions concerned: the automatic
    answer to OPTIONS, a path of two slashes and a failed bind in
    Express 5, and the characters [encodeUrl] escapes from Express 4.20
    on, for which both tables are embedded.

    Conventions.  A JavaScript string that ends up on the wire is a Rocq
    [string] holding its bytes (the body in UTF-8, header values and the
    request path in Latin-1, one byte per code unit, as Node hands them
    over).  The request is taken as Node and [parseurl] deliver it: method,
    path name, query string and the header object with lower-cased keys.
    A CONNECT request is not delivered to the application at all: Node
    emits ['connect'] for it and, without a listener for that, closes the
    connection.
    Headers that Node's transport adds when it writes a message ([Date],
    [Connection], [Keep-Alive]) are below the level of the model. *)

From Stdlib Require Import ZArith String Ascii List Bool Lia.
From stdpp Require Import gmap strings list pretty.

Open Scope string_scope.

(** ** JavaScript strings *)

Module Js.

Definition code (c : ascii) : Z := Z.of_N (N_of_ascii c).

Definition chr (z : Z) : ascii := ascii_of_N (Z.to_N z).

Definition in_range (lo hi : Z) (c : ascii) : bool :=
  (lo <=? code c)%Z && (code c <=? hi)%Z.

(** [String.prototype.toLowerCase], on the ASCII letters. *)
Definition lower_char (c : ascii) : ascii :=
  if in_range 65 90 c then chr (code c + 32) else c.

Fixpoint toLowerCase (s : string) : string :=
  match s with
  | EmptyString => EmptyString
  | String c s' => String (lower_char c) (toLowerCase s')
  end.

(** [s.startsWith(p)], returning what follows the prefix. *)
Fixpoint strip_prefix (p s : string) : option string :=
  match p, s with
  | EmptyString, _ => Some s
  | String a p', String b s' => if Ascii.eqb a b then strip_prefix p' s' else None
  | String _ _, EmptyString => None
  end.


(** Truthiness of a possibly undefined string: [undefined] and [''] are falsy. *)
Definition truthy (o : option string) : bool :=
  match o with
  | Some (String _ _) => true
  | _ => false
  end.

(** The double quote, as a one-character string. *)
Definition dquote : string := String (chr 34) EmptyString.

(** The line feed, as a one-character string. *)
Definition lf : string := String (chr 10) EmptyString.

Definition hex_digit (upper : bool) (d : Z) : ascii :=
  if (d <? 10)%Z then chr (48 + d) else chr ((if upper then 55 else 87) + d).

(** [Number.prototype.toString(16)] on a natural number. *)
Fixpoint to_hex_fuel (fuel : nat) (n : Z) (acc : string) : string :=
  match fuel with
  | O => acc
  | S f =>
      let acc' := String (hex_digit false (n mod 16)) acc in
      if (n / 16 =? 0)%Z then acc' else to_hex_fuel f (n / 16) acc'
  end.

Definition to_hex (n : nat) : string :=
  to_hex_fuel (S n) (Z.of_nat n) EmptyString.

(** [%XX], the escape [encodeURI] writes for one byte. *)
Definition pct (b : Z) : string :=
  String "%" (String (hex_digit true (b / 16)) (String (hex_digit true (b mod 16)) EmptyString)).

End Js.

(** ** SHA-1 and Base64, as [crypto.createHash('sha1')...digest('base64')] *)

Module Sha1.

Local Open Scope Z_scope.

Definition w32 (x : Z) : Z := (x mod 2 ^ 32)%Z.

Definition rotl (n x : Z) : Z :=
  w32 (Z.lor (Z.shiftl x n) (Z.shiftr x (32 - n))).

Definition add32 (x y : Z) : Z := w32 (x + y).

(** The message followed by the bit 1, zeros up to 56 modulo 64 bytes, and
    the bit length as a 64-bit big-endian integer. *)
Definition be_bytes (n : nat) (x : Z) : list Z :=
  map (fun i => (Z.shiftr x (8 * Z.of_nat i) mod 256)%Z) (rev (seq 0 n)).

Definition pad (msg : list Z) : list Z :=
  let len := Z.of_nat (length msg) in
  let zeros := Z.to_nat ((55 - len) mod 64) in
  msg ++ [128%Z] ++ repeat 0%Z zeros ++ be_bytes 8 (8 * len).

Fixpoint words (fuel : nat) (bs : list Z) : list Z :=
  match fuel, bs with
  | S f, a :: b :: c :: d :: rest =>
      (a * 2 ^ 24 + b * 2 ^ 16 + c * 2 ^ 8 + d)%Z :: words f rest
  | _, _ => []
  end.

(** The message schedule, most recent word first. *)
Fixpoint schedule (n : nat) (rev_ws : list Z) : list Z :=
  match n with
  | O => rev_ws
  | S n' =>
      let w := rotl 1 (Z.lxor (Z.lxor (nth 2 rev_ws 0) (nth 7 rev_ws 0))
                              (Z.lxor (nth 13 rev_ws 0) (nth 15 rev_ws 0)))%Z in
      schedule n' (w :: rev_ws)
  end.

Definition State : Type := Z * Z * Z * Z * Z.

Definition round (t : nat) (w : Z) (s : State) : State :=
  let '(a, b, c, d, e) := s in
  let '(f, k) :=
    if (t <? 20)%nat then (Z.lor (Z.land b c) (Z.land (Z.lxor b (2 ^ 32 - 1)) d), 1518500249)
    else if (t <? 40)%nat then (Z.lxor (Z.lxor b c) d, 1859775393)
    else if (t <? 60)%nat then (Z.lor (Z.lor (Z.land b c) (Z.land b d)) (Z.land c d), 2400959708)
    else (Z.lxor (Z.lxor b c) d, 3395469782) in
  let temp := add32 (add32 (add32 (add32 (rotl 5 a) f) e) k) w in
  (temp, a, rotl 30 b, c, d).

Fixpoint rounds (t : nat) (ws : list Z) (s : State) : State :=
  match ws with
  | [] => s
  | w :: ws' => rounds (S t) ws' (round t w s)
  end.

Definition block (s : State) (ws16 : list Z) : State :=
  let '(a, b, c, d, e) := s in
  let '(a', b', c', d', e') := rounds 0 (rev (schedule 64 (rev ws16))) s in
  (add32 a a', add32 b b', add32 c c', add32 d d', add32 e e').

Fixpoint blocks (fuel : nat) (ws : list Z) (s : State) : State :=
  match fuel with
  | O => s
  | S f =>
      match ws with
      | [] => s
      | _ => blocks f (skipn 16 ws) (block s (firstn 16 ws))
      end
  end.

Definition init : State :=
  (1732584193, 4023233417, 2562383102, 271733878, 3285377520)%Z.

Definition bytes_of_string (s : string) : list Z :=
  map Js.code (list_ascii_of_string s).

Definition digest (s : string) : list Z :=
  let ws := words (String.length s + 72)%nat (pad (bytes_of_string s)) in
  let '(a, b, c, d, e) := blocks (length ws) ws init in
  be_bytes 4 a ++ be_bytes 4 b ++ be_bytes 4 c ++ be_bytes 4 d ++ be_bytes 4 e.

Definition b64_char (n : Z) : ascii :=
  if (n <? 26)%Z then Js.chr (65 + n)
  else if (n <? 52)%Z then Js.chr (97 + (n - 26))
  else if (n <? 62)%Z then Js.chr (48 + (n - 52))
  else if (n =? 62)%Z then "+"%char else "/"%char.

Fixpoint base64 (bs : list Z) : string :=
  match bs with
  | [] => EmptyString
  | [a] =>
      String (b64_char (a / 4)) (String (b64_char (a mod 4 * 16)) "==")
  | [a; b] =>
      String (b64_char (a / 4))
        (String (b64_char (a mod 4 * 16 + b / 16))
           (String (b64_char (b mod 16 * 4)) "="))
  | a :: b :: c :: rest =>
      String (b64_char (a / 4))
        (String (b64_char (a mod 4 * 16 + b / 16))
           (String (b64_char (b mod 16 * 4 + c / 64))
              (String (b64_char (c mod 64)) (base64 rest))))
  end%Z.

Definition digest_base64 (s : string) : string := base64 (digest s).

End Sha1.

(** ** The part of Express 4.x that [src/index.js] runs on *)

Module Express.

Import Js.

(** *** Requests, responses, the console *)

(** The request as the router sees it: [req.method], the path name and the
    query string that [parseurl(req)] splits [req.url] into at the first
    question mark, and [req.headers] (Node lower-cases the keys). *)
Record Req : Type := mkReq {
  method : string;
  path : string;
  query : option string;
  headers : gmap string string
}.

(** Node's [ServerResponse], as far as Express writes to it.  [finished] is
    set by [res.end]; a handler that leaves it unset has called [next()]. *)
Record Res : Type := mkRes {
  statusCode : Z;
  statusMessage : option string;
  res_headers : list (string * string);
  body : string;
  finished : bool
}.

(** A response on which nothing has been set yet. *)
Definition new_res : Res :=
  {| statusCode := 200; statusMessage := None; res_headers := [];
     body := ""; finished := false |}.

(** [res.setHeader(name, value)]: one entry per lower-cased name, a second
    write replaces the first in place. *)
Fixpoint set_in (name value : string) (hs : list (string * string)) : list (string * string) :=
  match hs with
  | [] => [(name, value)]
  | (n, v) :: hs' =>
      if toLowerCase n =? toLowerCase name then (name, value) :: hs'
      else (n, v) :: set_in name value hs'
  end.

Definition setHeader (name value : string) (res : Res) : Res :=
  {| statusCode := statusCode res; statusMessage := statusMessage res;
     res_headers := set_in name value (res_headers res);
     body := body res; finished := finished res |}.

(** [res.getHeader(name)], also Express's [res.get]. *)
Fixpoint get_in (name : string) (hs : list (string * string)) : option string :=
  match hs with
  | [] => None
  | (n, v) :: hs' => if toLowerCase n =? toLowerCase name then Some v else get_in name hs'
  end.

Definition getHeader (name : string) (res : Res) : option string :=
  get_in name (res_headers res).

(** [res.removeHeader(name)]. *)
Definition removeHeader (name : string) (res : Res) : Res :=
  {| statusCode := statusCode res; statusMessage := statusMessage res;
     res_headers :=
       List.filter (fun nv => negb (toLowerCase (fst nv) =? toLowerCase name)) (res_headers res);
     body := body res; finished := finished res |}.

Definition set_status (code : Z) (res : Res) : Res :=
  {| statusCode := code; statusMessage := statusMessage res;
     res_headers := res_headers res; body := body res; finished := finished res |}.

Definition set_statusMessage (msg : string) (res : Res) : Res :=
  {| statusCode := statusCode res; statusMessage := Some msg;
     res_headers := res_headers res; body := body res; finished := finished res |}.

(** [res.end(chunk)]. *)
Definition res_end (chunk : string) (res : Res) : Res :=
  {| statusCode := statusCode res; statusMessage := statusMessage res;
     res_headers := res_headers res; body := chunk; finished := true |}.

(** What the process has written with [console.log], oldest line first. *)
Definition Console : Type := list string.

(** Code that may write to the console, and that may leave the embedded
    part of the library ([None]). *)
Definition M (A : Type) : Type := Console -> option (A * Console).

Definition ret {A : Type} (a : A) : M A := fun c => Some (a, c).

Definition bind {A B : Type} (m : M A) (k : A -> M B) : M B :=
  fun c => match m c with
           | Some (a, c') => k a c'
           | None => None
           end.

Definition lift {A : Type} (o : option A) : M A :=
  fun c => match o with
           | Some a => Some (a, c)
           | None => None
           end.

Definition console_log (line : string) : M unit :=
  fun c => Some (tt, (c ++ [line])%list).

Declare Scope express_scope.
Delimit Scope express_scope with express.
Notation "'let*' x ':=' m 'in' k" := (bind m (fun x => k))
  (at level 10, x name, m at level 100, k at level 200) : express_scope.
Local Open Scope express_scope.

(** A route handler or middleware, [(req, res, next) => ...]. *)
Definition Handler : Type := Req -> Res -> M Res.

(** *** [etag] 1.8: the weak entity tag [res.send] generates *)

(** [entitytag]: the byte length in hexadecimal, a dash, and the first 27
    characters of the Base64 SHA-1 of the entity, in double quotes.  (The
    package answers the empty entity from a constant, the value this formula
    gives at [""].) *)
Definition entitytag (entity : string) : string :=
  dquote ++ to_hex (String.length entity) ++ "-"
    ++ substring 0 27 (Sha1.digest_base64 entity) ++ dquote.

(** Express's default ['etag fn'], [etag(buf, {weak: true})]. *)
Definition etag (entity : string) : string := "W/" ++ entitytag entity.

(** *** [fresh] 0.5.2: is the client's cached copy still good? *)

(** [\s], on the code units a header value can hold. *)
Definition is_space (c : ascii) : bool :=
  in_range 9 13 c || (code c =? 32)%Z || (code c =? 160)%Z.

Fixpoint skip_spaces (s : string) : string :=
  match s with
  | String c s' => if is_space c then skip_spaces s' else s
  | EmptyString => s
  end.

(** A match of [\s*?no-cache\s*?(?:,|$)] at the start of [s]. *)
Definition no_cache_here (s : string) : bool :=
  match strip_prefix "no-cache" (skip_spaces s) with
  | Some rest =>
      match skip_spaces rest with
      | EmptyString => true
      | String c _ => Ascii.eqb c ","
      end
  | None => false
  end.

Fixpoint no_cache_after_comma (s : string) : bool :=
  match s with
  | EmptyString => false
  | String c s' =>
      (Ascii.eqb c "," && no_cache_here s') || no_cache_after_comma s'
  end.

(** [CACHE_CONTROL_NO_CACHE_REGEXP.test(s)], the regular expression being
    [/(?:^|,)\s*?no-cache\s*?(?:,|$)/]. *)
Definition CACHE_CONTROL_NO_CACHE (s : string) : bool :=
  no_cache_here s || no_cache_after_comma s.

(** [parseTokenList]: the loop over [str] with its three indices. *)
Fixpoint parseTokenList_loop (str rest : string) (i start end_ : nat) (tokens : list string)
  : list string :=
  match rest with
  | EmptyString => tokens ++ [substring start (end_ - start) str]
  | String c rest' =>
      if Ascii.eqb c " " then
        if Nat.eqb start end_
        then parseTokenList_loop str rest' (S i) (S i) (S i) tokens
        else parseTokenList_loop str rest' (S i) start end_ tokens
      else if Ascii.eqb c "," then
        parseTokenList_loop str rest' (S i) (S i) (S i)
          (tokens ++ [substring start (end_ - start) str])
      else parseTokenList_loop str rest' (S i) start (S i) tokens
  end.

Definition parseTokenList (str : string) : list string :=
  parseTokenList_loop str str 0 0 0 [].

Definition etag_matches (etag_ : string) (m : string) : bool :=
  (m =? etag_) || (m =? "W/" ++ etag_) || ("W/" ++ m =? etag_).

(** [fresh(reqHeaders, resHeaders)], with the response's [ETag] and
    [Last-Modified] as [res.get] returns them.  The comparison of two HTTP
    dates, reached only when the response carries [Last-Modified], is not
    embedded ([None]). *)
Definition fresh (reqHeaders : gmap string string) (etag_ lastModified : option string)
  : option bool :=
  let modifiedSince := reqHeaders !! "if-modified-since" in
  let noneMatch := reqHeaders !! "if-none-match" in
  let cacheControl := reqHeaders !! "cache-control" in
  if negb (truthy modifiedSince) && negb (truthy noneMatch) then Some false
  else if truthy cacheControl && CACHE_CONTROL_NO_CACHE (default "" cacheControl)
  then Some false
  else if truthy noneMatch && negb (default "" noneMatch =? "*")
          && (negb (truthy etag_)
              || negb (existsb (etag_matches (default "" etag_))
                               (parseTokenList (default "" noneMatch))))
  then Some false
  else if truthy modifiedSince then
    if truthy lastModified then None else Some false
  else Some true.

(** *** [lib/response.js]: [res.send] *)

(** [res.type('html')]: [mime.lookup] gives [text/html], and [res.set]
    appends the charset [mime] knows for it. *)
Definition type_html (res : Res) : Res :=
  setHeader "Content-Type" "text/html; charset=utf-8" res.

(** The getter [req.fresh] of [lib/request.js]. *)
Definition req_fresh (req : Req) (res : Res) : option bool :=
  if negb (method req =? "GET") && negb (method req =? "HEAD") then Some false
  else if ((200 <=? statusCode res)%Z && (statusCode res <? 300)%Z)
          || (statusCode res =? 304)%Z
  then fresh (headers req) (getHeader "ETag" res) (getHeader "Last-Modified" res)
  else Some false.

(** [res.send(chunk)] for a string [chunk], in the three parts of its
    body.  First the headers: default the type to HTML, set
    [Content-Length] to the byte length and generate a weak [ETag] unless
    one is set. *)
Definition send_headers (chunk : string) (res : Res) : Res :=
  let res := type_html res in
  let generateETag := negb (truthy (getHeader "ETag" res)) in
  let res := setHeader "Content-Length" (pretty (String.length chunk)) res in
  if generateETag then setHeader "ETag" (etag chunk) res else res.

(** Then what 204, 304 and 205 must not carry is stripped. *)
Definition strip_headers (res : Res) (chunk : string) : Res * string :=
  let '(res, chunk) :=
    if (statusCode res =? 204)%Z || (statusCode res =? 304)%Z
    then (removeHeader "Transfer-Encoding"
            (removeHeader "Content-Length" (removeHeader "Content-Type" res)), "")
    else (res, chunk) in
  if (statusCode res =? 205)%Z
  then (removeHeader "Transfer-Encoding" (setHeader "Content-Length" "0" res), "")
  else (res, chunk).

(** In between, a fresh conditional request turns the status into 304; at
    the end the response is ended, without the body under HEAD.  Rewriting
    the charset of a [Content-Type] set earlier is not embedded ([None]). *)
Definition res_send (chunk : string) (req : Req) (res : Res) : option Res :=
  if truthy (getHeader "Content-Type" res) then None
  else
    let res := send_headers chunk res in
    match req_fresh req res with
    | None => None
    | Some isFresh =>
        let '(res, chunk) :=
          strip_headers (if isFresh then set_status 304 res else res) chunk in
        Some (if method req =? "HEAD" then res_end "" res else res_end chunk res)
    end.

(** *** [finalhandler]: the answer when no layer has ended the response *)

(** [encodeURI] on one code unit: the unreserved and reserved characters
    stay, every other one is escaped through its UTF-8 bytes. *)
Definition encodeURI_stays (c : ascii) : bool :=
  in_range 97 122 c || in_range 65 90 c || in_range 48 57 c
  || existsb (Ascii.eqb c) (list_ascii_of_string ";,/?:@&=+$-_.!~*'()#").

Definition encodeURI_char (c : ascii) : string :=
  if encodeURI_stays c then String c EmptyString
  else if (code c <? 128)%Z then pct (code c)
  else pct (192 + code c / 64) ++ pct (128 + code c mod 64).

(** The characters [ENCODE_CHARS_REGEXP] leaves alone in encodeurl 1.0.2,
    which Express has up to 4.19:
    [\x21 \x25 \x26-\x3B \x3D \x3F-\x5B \x5D \x5F \x61-\x7A \x7E]. *)
Definition encodeUrl_stays (c : ascii) : bool :=
  (code c =? 33)%Z || (code c =? 37)%Z || in_range 38 59 c || (code c =? 61)%Z
  || in_range 63 91 c || (code c =? 93)%Z || (code c =? 95)%Z
  || in_range 97 122 c || (code c =? 126)%Z.

(** And in encodeurl 2.0.0, which Express has from 4.20 on and in 5:
    [\x21 \x23-\x3B \x3D \x3F-\x5F \x61-\x7A \x7C \x7E], so that the
    backslash, the caret and the bar stay as well. *)
Definition encodeUrl_stays_2 (c : ascii) : bool :=
  (code c =? 33)%Z || in_range 35 59 c || (code c =? 61)%Z
  || in_range 63 95 c || in_range 97 122 c || (code c =? 124)%Z || (code c =? 126)%Z.

Definition is_hex (c : ascii) : bool :=
  in_range 48 57 c || in_range 65 70 c || in_range 97 102 c.

(** [url.replace(ENCODE_CHARS_REGEXP, encodeURI)] for an expression that
    leaves the characters [stays] alone: every match goes through
    [encodeURI]; a percent sign is part of a match together with the one or
    two characters that keep it from being an escape. *)
Fixpoint encodeUrl_fuel (stays : ascii -> bool) (fuel : nat) (url : string) : string :=
  match fuel with
  | O => EmptyString
  | S f =>
      match url with
      | EmptyString => EmptyString
      | String c rest =>
          if Ascii.eqb c "%" then
            match rest with
            | EmptyString => "%25"
            | String d1 rest1 =>
                if negb (is_hex d1)
                then "%25" ++ encodeURI_char d1 ++ encodeUrl_fuel stays f rest1
                else
                  match rest1 with
                  | String d2 rest2 =>
                      if negb (is_hex d2)
                      then "%25" ++ String d1 (encodeURI_char d2) ++ encodeUrl_fuel stays f rest2
                      else String c (encodeUrl_fuel stays f rest)
                  | EmptyString => String c (encodeUrl_fuel stays f rest)
                  end
            end
          else if stays c then String c (encodeUrl_fuel stays f rest)
          else encodeURI_char c ++ encodeUrl_fuel stays f rest
      end
  end.

Definition encodeUrl_with (stays : ascii -> bool) (url : string) : string :=
  encodeUrl_fuel stays (S (String.length url)) url.

(** [encodeUrl(url)] of encodeurl 1.0.2, the one the final handler below
    calls, and of encodeurl 2.0.0. *)
Definition encodeUrl (url : string) : string := encodeUrl_with encodeUrl_stays url.

Definition encodeUrl_2 (url : string) : string := encodeUrl_with encodeUrl_stays_2 url.

(** [escapeHtml(string)]. *)
Fixpoint escapeHtml (s : string) : string :=
  match s with
  | EmptyString => EmptyString
  | String c s' =>
      (if (code c =? 34)%Z then "&quot;"
       else if Ascii.eqb c "&" then "&amp;"
       else if Ascii.eqb c "'" then "&#39;"
       else if Ascii.eqb c "<" then "&lt;"
       else if Ascii.eqb c ">" then "&gt;"
       else String c EmptyString) ++ escapeHtml s'
  end.

(** [.replace(/\n/g, '<br>')]. *)
Fixpoint replace_newlines (s : string) : string :=
  match s with
  | EmptyString => EmptyString
  | String c s' =>
      if (code c =? 10)%Z then "<br>" ++ replace_newlines s'
      else String c (replace_newlines s')
  end.

(** [.replace(/\x20{2}/g, ' &nbsp;')]. *)
Fixpoint replace_double_spaces (s : string) : string :=
  match s with
  | String " " (String " " s') => " &nbsp;" ++ replace_double_spaces s'
  | String c s' => String c (replace_double_spaces s')
  | EmptyString => EmptyString
  end.

(** [createHtmlDocument(message)]. *)
Definition createHtmlDocument (message : string) : string :=
  let body := replace_double_spaces (replace_newlines (escapeHtml message)) in
  "<!DOCTYPE html>" ++ lf ++
  "<html lang=" ++ dquote ++ "en" ++ dquote ++ ">" ++ lf ++
  "<head>" ++ lf ++
  "<meta charset=" ++ dquote ++ "utf-8" ++ dquote ++ ">" ++ lf ++
  "<title>Error</title>" ++ lf ++
  "</head>" ++ lf ++
  "<body>" ++ lf ++
  "<pre>" ++ body ++ "</pre>" ++ lf ++
  "</body>" ++ lf ++
  "</html>" ++ lf.

(** [finalhandler(req, res)()] without an error: 404, the reason phrase
    from [statuses], the security headers, and the HTML page saying
    [Cannot METHOD path]; no body under HEAD. *)
Definition finalhandler (req : Req) (res : Res) : Res :=
  let msg := "Cannot " ++ method req ++ " " ++ encodeUrl (path req) in
  let body := createHtmlDocument msg in
  let res := set_statusMessage "Not Found" (set_status 404 res) in
  let res := removeHeader "Content-Range"
               (removeHeader "Content-Language" (removeHeader "Content-Encoding" res)) in
  let res := setHeader "Content-Security-Policy" "default-src 'none'" res in
  let res := setHeader "X-Content-Type-Options" "nosniff" res in
  let res := setHeader "Content-Type" "text/html; charset=utf-8" res in
  let res := setHeader "Content-Length" (pretty (String.length body)) res in
  if method req =? "HEAD" then res_end "" res else res_end body res.

(** *** [lib/router]: layers, routes and the dispatch loop *)

(** A route: the methods it has handlers for (the keys of [route.methods],
    lower case) and its stack of handlers, each under its method. *)
Record Route : Type := mkRoute {
  route_path : string;
  methods : list string;
  route_stack : list (string * Handler)
}.

(** A layer of the router's stack: middleware mounted at the root, which
    matches every path, or a route behind the regular expression compiled
    from its path. *)
Inductive Layer : Type :=
| Middleware (handle : Handler)
| RouteLayer (regexp : string -> bool) (route : Route).

(** The application: [app._router.stack]. *)
Record App : Type := mkApp { stack : list Layer }.

(** The [query] middleware: parses the query string into [req.query] and
    calls [next()]; nothing the response depends on. *)
Definition query_mw : Handler := fun _ res => ret res.

(** [expressInit]: with the default setting ['x-powered-by'] it sets the
    header and calls [next()]. *)
Definition expressInit : Handler :=
  fun _ res => ret (setHeader "X-Powered-By" "Express" res).

(** [express()], with the router [lazyrouter] builds on first use. *)
Definition express : App :=
  {| stack := [Middleware query_mw; Middleware expressInit] |}.

Fixpoint drop_last (s : string) : string :=
  match s with
  | EmptyString => EmptyString
  | String c EmptyString => EmptyString
  | String c s' => String c (drop_last s')
  end.

Fixpoint ends_with_slash (s : string) : bool :=
  match s with
  | EmptyString => false
  | String c EmptyString => Ascii.eqb c "/"
  | String _ s' => ends_with_slash s'
  end.

(** [pathRegexp(path, keys, {end: true})] with the router's defaults (not
    strict, not case sensitive), for a path without pattern characters: the
    path itself, with or without one trailing slash; for [/] the expression
    is [/^\/?$/i].  (Express 5 compiles [/] to an expression that accepts
    [/] and [//] instead.) *)
Definition pathRegexp (p : string) : string -> bool :=
  fun s =>
    let s := toLowerCase s in
    let p := toLowerCase p in
    if ends_with_slash p then (s =? p) || (s =? drop_last p)
    else (s =? p) || (s =? p ++ "/").

(** [app.get(path, handler)]: a new route for [path] with one handler under
    [get], pushed as a new layer on the router's stack. *)
Definition app_get (p : string) (handler : Handler) (a : App) : App :=
  {| stack := (stack a ++
       [RouteLayer (pathRegexp p)
          {| route_path := p; methods := ["get"]; route_stack := [("get", handler)] |}])%list |}.

Definition has (m : string) (ms : list string) : bool := existsb (String.eqb m) ms.

(** [Route.prototype._handles_method]: HEAD falls back on GET. *)
Definition handles_method (route : Route) (m : string) : bool :=
  let name := toLowerCase m in
  let name := if (name =? "head") && negb (has "head" (methods route)) then "get" else name in
  has name (methods route).

Fixpoint toUpperCase (s : string) : string :=
  match s with
  | EmptyString => EmptyString
  | String c s' =>
      String (if in_range 97 122 c then chr (code c - 32) else c) (toUpperCase s')
  end.

(** [Route.prototype._options]. *)
Definition route_options (route : Route) : list string :=
  let ms := methods route in
  let ms := if has "get" ms && negb (has "head" ms) then (ms ++ ["head"])%list else ms in
  map toUpperCase ms.

(** [appendMethods(list, addition)]. *)
Fixpoint appendMethods (options addition : list string) : list string :=
  match addition with
  | [] => options
  | m :: rest => appendMethods (if has m options then options else (options ++ [m])%list) rest
  end.

Fixpoint join (sep : string) (l : list string) : string :=
  match l with
  | [] => ""
  | [x] => x
  | x :: rest => x ++ sep ++ join sep rest
  end.

(** [Route.prototype.dispatch]: the handlers of the request's method in
    order, each until one ends the response. *)
Fixpoint dispatch_next (st : list (string * Handler)) (m : string) (req : Req) (res : Res)
  : M Res :=
  match st with
  | [] => ret res
  | (lm, h) :: rest =>
      if negb (lm =? m) then dispatch_next rest m req res
      else let* res' := h req res in
           if finished res' then ret res' else dispatch_next rest m req res'
  end.

Definition route_dispatch (route : Route) (req : Req) (res : Res) : M Res :=
  let m := toLowerCase (method req) in
  let m := if (m =? "head") && negb (has "head" (methods route)) then "get" else m in
  dispatch_next (route_stack route) m req res.

(** [sendOptionsResponse(res, options, next)]: the methods joined by
    commas, as [Allow] and as body, through [res.send].  (The router of
    Express 5 writes the list itself, as [text/plain].) *)
Definition sendOptionsResponse (options : list string) (req : Req) (res : Res) : option Res :=
  let body := join "," options in
  res_send body req (setHeader "Allow" body res).

(** The router's [done]: the automatic OPTIONS answer when routes matched
    the path, the final handler otherwise. *)
Definition done (req : Req) (options : list string) (res : Res) : M Res :=
  match options with
  | _ :: _ =>
      if method req =? "OPTIONS" then lift (sendOptionsResponse options req res)
      else ret (finalhandler req res)
  | [] => ret (finalhandler req res)
  end.

(** [proto.handle]'s [next()]: walk the stack; middleware runs on every
    request, a route layer when its regular expression matches the path
    and the route handles the method (or the method is HEAD). *)
Fixpoint router_next (st : list Layer) (req : Req) (options : list string) (res : Res)
  : M Res :=
  match st with
  | [] => done req options res
  | Middleware h :: rest =>
      let* res' := h req res in
      if finished res' then ret res' else router_next rest req options res'
  | RouteLayer regexp route :: rest =>
      if negb (regexp (path req)) then router_next rest req options res
      else
        let has_method := handles_method route (method req) in
        let options :=
          if negb has_method && (method req =? "OPTIONS")
          then appendMethods options (route_options route) else options in
        if negb has_method && negb (method req =? "HEAD")
        then router_next rest req options res
        else let* res' := route_dispatch route req res in
             if finished res' then ret res' else router_next rest req options res'
  end.

(** [app.handle(req, res)]: Node's ['request'] listener. *)
Definition app_handle (a : App) (req : Req) : M Res :=
  router_next (stack a) req [] new_res.

(** The (method, path) pairs of the route table, in registration order. *)
Fixpoint routes (st : list Layer) : list (string * string) :=
  match st with
  | [] => []
  | Middleware _ :: rest => routes rest
  | RouteLayer _ route :: rest =>
      (map (fun m => (m, route_path route)) (methods route) ++ routes rest)%list
  end.

End Express.

Import Js Express.
Local Open Scope express_scope.

(** ** [src/index.js] *)

(** [const PORT = 3000;] *)
Definition PORT : Z := 3000.

(** The string literal handed to [res.send], in UTF-8. *)
Definition greeting : string := "Hello World! I am new here 🚀".

(** [(req, res) => { res.send('Hello World! I am new here 🚀'); }] *)
Definition root_handler : Handler :=
  fun req res => lift (res_send greeting req res).

(** [const app = express(); app.get('/', ...);] *)
Definition app : App := app_get "/" root_handler express.

(** [() => { console.log(`Server is running on http://localhost:${PORT}`); }] *)
Definition listening_callback : M unit :=
  console_log ("Server is running on http://localhost:" ++ pretty PORT).

(** ** The process around the application *)

(** Why the operating system refuses a [bind]. *)
Inductive Errno : Type :=
| EADDRINUSE
| EACCES
| Errno_other (code : string).

(** The signals a terminal or a supervisor sends to stop the process. *)
Inductive Signal : Type := SIGINT | SIGTERM.

Definition signum (sig : Signal) : Z :=
  match sig with
  | SIGINT => 2
  | SIGTERM => 15
  end.

(** What a program can register with [process.on(signal, listener)], as far
    as stopping goes: a listener that closes the server and exits with
    [code] once the requests in flight are answered
    ([() => server.close(() => process.exit(code))]), or one that does
    nothing ([() => {}]). *)
Inductive SignalListener : Type :=
| Graceful (code : Z)
| Ignore.

(** The listening server: the application answering its requests, the port
    it is bound to, the requests received and not yet answered, the
    responses written so far, and the signal listeners of its process. *)
Record Server : Type := mkServer {
  srv_app : App;
  port : Z;
  inflight : list Req;
  written : list Res;
  signal_listeners : list (Signal * SignalListener)
}.

(** [app.listen(port, callback)]: [http.createServer(app).listen(port)]
    with [callback] run once on ['listening'], on a console [c].  [os] is
    what the operating system answers to a bind on each port.  A failed
    bind comes back as the code of the server's ['error'] event, and there
    the embedding stops: what becomes of that event is decided inside
    Express and Node (Express 4 leaves it to Node, which throws it as an
    uncaught exception; Express 5 hands it to [callback]).  Listening
    registers no signal listener. *)
Definition app_listen (a : App) (p : Z) (callback : M unit) (os : Z -> option Errno)
    (c : Console) : option (Errno + Server * Console) :=
  match os p with
  | Some e => Some (inl e)
  | None =>
      match callback c with
      | Some (_, c') =>
          Some (inr ({| srv_app := a; port := p; inflight := []; written := [];
                        signal_listeners := [] |}, c'))
      | None => None
      end
  end.

(** The whole of [src/index.js], run with the environment [env]
    ([process.env], which the file never reads) on a system [os], from an
    empty console. *)
Definition main (env : gmap string string) (os : Z -> option Errno)
  : option (Errno + Server * Console) :=
  app_listen app PORT listening_callback os [].

(** [process.on(signal, listener)]: the listener is registered for the
    signal, after the ones already there.  Neither [index.js] calls it. *)
Definition process_on (sig : Signal) (l : SignalListener) (s : Server) : Server :=
  {| srv_app := srv_app s; port := port s; inflight := inflight s; written := written s;
     signal_listeners := (signal_listeners s ++ [(sig, l)])%list |}.

Definition signal_eqb (a b : Signal) : bool :=
  match a, b with
  | SIGINT, SIGINT | SIGTERM, SIGTERM => true
  | _, _ => false
  end.

(** [process.listeners(signal)]: the listeners registered for a signal, in
    the order of their registration. *)
Definition listeners_for (sig : Signal) (ls : list (Signal * SignalListener))
  : list SignalListener :=
  map snd (List.filter (fun sl => signal_eqb (fst sl) sig) ls).

(** How a process ended: it exited with a code, or a signal terminated it
    (Node then reports no exit code, only the signal). *)
Inductive ExitStatus : Type :=
| ExitCode (n : Z)
| KilledBy (sig : Signal).

(** The status a shell reports for its child: the exit code, or 128 plus
    the number of the signal that terminated it. *)
Definition shell_status (st : ExitStatus) : Z :=
  match st with
  | ExitCode n => n
  | KilledBy sig => 128 + signum sig
  end.

(** A process is running its server, or has ended with a status, leaving
    the responses it wrote and the lines it logged. *)
Inductive Proc : Type :=
| Running (s : Server) (c : Console)
| Exited (status : ExitStatus) (responses : list Res) (c : Console).

(** The requests in flight answered one after the other, as a server that
    has been closed still does. *)
Fixpoint drain (a : App) (reqs : list Req) (c : Console) : option (list Res * Console) :=
  match reqs with
  | [] => Some ([], c)
  | req :: rest =>
      match app_handle a req c with
      | Some (res, c') =>
          match drain a rest c' with
          | Some (rs, c'') => Some (res :: rs, c'')
          | None => None
          end
      | None => None
      end
  end.

Inductive Event : Type :=
| Arrive (req : Req)
| Respond
| Kill (sig : Signal).

(** One turn of the event loop.  A request that has arrived waits in
    [inflight]; [Respond] runs the application on the oldest one and writes
    its response.  A signal goes to the listener registered for it: a
    [Graceful] one lets the requests in flight be answered and exits with
    its code, an [Ignore] one leaves the process as it is (how several
    listeners for one signal interfere is not embedded).  A signal without
    a listener terminates the process on the spot, and what is in flight is
    never answered. *)
Definition step (ev : Event) (p : Proc) : option Proc :=
  match p with
  | Exited _ _ _ => Some p
  | Running s c =>
      match ev with
      | Arrive req =>
          Some (Running {| srv_app := srv_app s; port := port s;
                           inflight := (inflight s ++ [req])%list;
                           written := written s;
                           signal_listeners := signal_listeners s |} c)
      | Respond =>
          match inflight s with
          | [] => Some p
          | req :: rest =>
              match app_handle (srv_app s) req c with
              | Some (res, c') =>
                  Some (Running {| srv_app := srv_app s; port := port s;
                                   inflight := rest;
                                   written := (written s ++ [res])%list;
                                   signal_listeners := signal_listeners s |} c')
              | None => None
              end
          end
      | Kill sig =>
          match listeners_for sig (signal_listeners s) with
          | [] => Some (Exited (KilledBy sig) (written s) c)
          | [Ignore] => Some p
          | [Graceful code] =>
              match drain (srv_app s) (inflight s) c with
              | Some (rs, c') => Some (Exited (ExitCode code) (written s ++ rs)%list c')
              | None => None
              end
          | _ :: _ :: _ => None
          end
      end
  end.

Fixpoint run (evs : list Event) (p : Proc) : option Proc :=
  match evs with
  | [] => Some p
  | ev :: rest =>
      match step ev p with
      | Some p' => run rest p'
      | None => None
      end
  end.

(** The process from its start: [main], then the events, when the bind
    succeeded. *)
Definition boot (env : gmap string string) (os : Z -> option Errno) (evs : list Event)
  : option (Errno + Proc) :=
  match main env os with
  | Some (inl e) => Some (inl e)
  | Some (inr (s, c)) =>
      match run evs (Running s c) with
      | Some p => Some (inr p)
      | None => None
      end
  | None => None
  end.

(** A system on which every port is free. *)
Definition all_free : Z -> option Errno := fun _ => None.

(** A system on which exactly the port [p] is taken. *)
Definition taken (p : Z) : Z -> option Errno :=
  fun q => if (q =? p)%Z then Some EADDRINUSE else None.

(** What the process has logged. *)
Definition console_of (p : Proc) : Console :=
  match p with
  | Running _ c => c
  | Exited _ _ c => c
  end.

(** The events of a client that sends [reqs] one after the other, waiting
    for each answer. *)
Definition serve (reqs : list Req) : list Event :=
  flat_map (fun req => [Arrive req; Respond]) reqs.

(** ** Vocabulary of the statements *)

(** The response as [expressInit] hands it to the route. *)
Definition res0 : Res :=
  {| statusCode := 200; statusMessage := None;
     res_headers := [("X-Powered-By", "Express")]; body := ""; finished := false |}.

(** The one route of [app]. *)
Definition the_route : Route :=
  {| route_path := "/"; methods := ["get"]; route_stack := [("get", root_handler)] |}.

(** The methods the route answers: GET, and HEAD through GET. *)
Definition handled (m : string) : bool :=
  (toLowerCase m =? "get") || (toLowerCase m =? "head").

(** [req.fresh] at the point where [res.send] reads it, for a body [chunk]. *)
Definition is_fresh (req : Req) (chunk : string) : option bool :=
  if negb (method req =? "GET") && negb (method req =? "HEAD") then Some false
  else fresh (headers req) (Some (etag chunk)) None.

(** What [res.send chunk] leaves behind after [expressInit] and the headers
    [extra]. *)
Definition sent (chunk : string) (extra : list (string * string)) (isFresh isHead : bool) : Res :=
  if isFresh then
    {| statusCode := 304; statusMessage := None;
       res_headers := (("X-Powered-By", "Express") :: extra ++ [("ETag", etag chunk)])%list;
       body := ""; finished := true |}
  else
    {| statusCode := 200; statusMessage := None;
       res_headers := (("X-Powered-By", "Express") :: extra ++
                       [("Content-Type", "text/html; charset=utf-8");
                        ("Content-Length", pretty (String.length chunk));
                        ("ETag", etag chunk)])%list;
       body := if isHead then "" else chunk; finished := true |}.

(** The answers of [app], branch by branch. *)
Definition answer (req : Req) : option Res :=
  if pathRegexp "/" (path req) then
    if handled (method req) then res_send greeting req res0
    else if method req =? "OPTIONS" then sendOptionsResponse ["GET"; "HEAD"] req res0
    else Some (finalhandler req res0)
  else Some (finalhandler req res0).

(** A request is conditional when it carries a non-empty [If-None-Match] or
    [If-Modified-Since]. *)
Definition conditional (req : Req) : bool :=
  truthy (headers req !! "if-none-match") || truthy (headers req !! "if-modified-since").

Definition with_method (m : string) (req : Req) : Req :=
  {| method := m; path := path req; query := query req; headers := headers req |}.

(** The entity tag of the greeting. *)
Definition greeting_etag : string :=
  "W/" ++ dquote ++ "1f-dfxAM39WdzSOouwLl8VCrk9Fp1o" ++ dquote.

(** The 200 of the route, with the body or, under HEAD, without. *)
Definition ok_response (isHead : bool) : Res :=
  {| statusCode := 200; statusMessage := None;
     res_headers := [("X-Powered-By", "Express");
                     ("Content-Type", "text/html; charset=utf-8");
                     ("Content-Length", "31");
                     ("ETag", greeting_etag)];
     body := if isHead then "" else greeting; finished := true |}.

(** The 304 a fresh conditional request gets. *)
Definition not_modified_response : Res :=
  {| statusCode := 304; statusMessage := None;
     res_headers := [("X-Powered-By", "Express"); ("ETag", greeting_etag)];
     body := ""; finished := true |}.

(** The error page of the final handler and the 404 that carries it. *)
Definition not_found_page (req : Req) : string :=
  createHtmlDocument ("Cannot " ++ method req ++ " " ++ encodeUrl (path req)).

Definition not_found_response (req : Req) : Res :=
  {| statusCode := 404; statusMessage := Some "Not Found";
     res_headers := [("X-Powered-By", "Express");
                     ("Content-Security-Policy", "default-src 'none'");
                     ("X-Content-Type-Options", "nosniff");
                     ("Content-Type", "text/html; charset=utf-8");
                     ("Content-Length", pretty (String.length (not_found_page req)))];
     body := if method req =? "HEAD" then "" else not_found_page req;
     finished := true |}.

(** The response of [app] to a request, read off a run on an empty console. *)
Definition respond (req : Req) : Res :=
  match app_handle app req [] with
  | Some (res, _) => res
  | None => new_res
  end.

(** The line the listening callback logs, and the server it logs it for. *)
Definition startup_line : string := "Server is running on http://localhost:3000".

Definition started : Server :=
  {| srv_app := app; port := 3000; inflight := []; written := [];
     signal_listeners := [] |}.

(** Requests of the scenarios. *)
Definition get_root : Req := mkReq "GET" "/" None ∅.
Definition get_root_query : Req :=
  mkReq "GET" "/" (Some "lang=en&x=1") {[ "accept" := "text/plain"; "user-agent" := "curl/8.5.0" ]}.
Definition get_root_if_none_match : Req := mkReq "GET" "/" None {[ "if-none-match" := "*" ]}.
Definition head_root : Req := mkReq "HEAD" "/" None ∅.
Definition head_root_if_none_match : Req := mkReq "HEAD" "/" None {[ "if-none-match" := "*" ]}.
Definition post_root : Req := mkReq "POST" "/" None ∅.
Definition port_8080 : gmap string string := {[ "PORT" := "8080" ]}.

(** ** The sibling program and the shape the two share *)

(** The second [index.js] of the repository (in [src/unnamed/part_000]):
    the same five statements with another port and another greeting. *)
Module Sibling.

(** [const PORT = 5000;] *)
Definition PORT : Z := 5000.

(** The string literal handed to [res.send], in UTF-8. *)
Definition greeting : string := "I am gonna rule this world 🚀".

(** [(req, res) => { res.send('I am gonna rule this world 🚀'); }] *)
Definition root_handler : Handler :=
  fun req res => lift (res_send greeting req res).

(** [const app = express(); app.get('/', ...);] *)
Definition app : App := app_get "/" root_handler express.

(** [() => { console.log(`Server is running on http://localhost:${PORT}`); }] *)
Definition listening_callback : M unit :=
  console_log ("Server is running on http://localhost:" ++ pretty PORT).

(** The whole file, run with the environment [env] on a system [os]. *)
Definition main (env : gmap string string) (os : Z -> option Errno)
  : option (Errno + Server * Console) :=
  app_listen app PORT listening_callback os [].

End Sibling.

(** Both files are [app.get('/', (req, res) => { res.send(g); })] on a fresh
    [express()], for a string literal [g]. *)
Definition hello_handler (g : string) : Handler :=
  fun req res => lift (res_send g req res).

Definition hello_app (g : string) : App := app_get "/" (hello_handler g) express.

Definition hello_route (g : string) : Route :=
  {| route_path := "/"; methods := ["get"]; route_stack := [("get", hello_handler g)] |}.

(** The answers of [hello_app g], branch by branch. *)
Definition hello_answer (g : string) (req : Req) : option Res :=
  if pathRegexp "/" (path req) then
    if handled (method req) then res_send g req res0
    else if method req =? "OPTIONS" then sendOptionsResponse ["GET"; "HEAD"] req res0
    else Some (finalhandler req res0)
  else Some (finalhandler req res0).

(** A request no route answers: its path is neither [/] nor empty, or its
    method is none of GET, HEAD (in any case) and OPTIONS. *)
Definition unrouted (req : Req) : Prop :=
  (path req <> "/" /\ path req <> "")
  \/ (toLowerCase (method req) <> "get" /\ toLowerCase (method req) <> "head"
      /\ method req <> "OPTIONS").

(** The request asks for an end-to-end reload: its [Cache-Control] has the
    directive [no-cache]. *)
Definition no_cache (req : Req) : bool :=
  CACHE_CONTROL_NO_CACHE (default "" (headers req !! "cache-control")).

(** Every character of [s] satisfies [P]. *)
Fixpoint all_chars (P : ascii -> bool) (s : string) : bool :=
  match s with
  | EmptyString => true
  | String c s' => P c && all_chars P s'
  end.

(** The separators of [parseTokenList]. *)
Definition is_separator (c : ascii) : bool := Ascii.eqb c " " || Ascii.eqb c ",".

(** The characters that open or close markup or an attribute value. *)
Definition is_markup (c : ascii) : bool :=
  Ascii.eqb c "<" || Ascii.eqb c ">" || (code c =? 34)%Z || Ascii.eqb c "'".

Definition is_line_feed (c : ascii) : bool := (code c =? 10)%Z.

(** The characters a URL may be written with on a line of text: visible
    ASCII other than the angle brackets, the double quote, the backquote and
    the braces. *)
Definition is_url_output (c : ascii) : bool :=
  in_range 33 126 c && negb ((code c =? 34)%Z || (code c =? 96)%Z)
  && negb (existsb (Ascii.eqb c) (list_ascii_of_string "<>{}")).

(** The characters of a URI: letters, digits, the unreserved marks and the
    reserved delimiters. *)
Definition is_uri_char (c : ascii) : bool :=
  in_range 97 122 c || in_range 65 90 c || in_range 48 57 c
  || existsb (Ascii.eqb c) (list_ascii_of_string "-._~:/?#[]@!$&'()*+,;=").

(** The characters on which the two versions of [encodeUrl] differ. *)
Definition is_backslash_caret_or_bar (c : ascii) : bool :=
  (code c =? 92)%Z || (code c =? 94)%Z || (code c =? 124)%Z.


(** A request that no version of Express routes to the handler: its path is
    none of [/], the empty path (which Express 4 takes for [/]) and [//]
    (which Express 5 takes for [/]), or its method is none of GET, HEAD (in
    any case) and OPTIONS. *)
Definition never_routed (req : Req) : Prop :=
  (path req <> "/" /\ path req <> "" /\ path req <> "//")
  \/ (toLowerCase (method req) <> "get" /\ toLowerCase (method req) <> "head"
      /\ method req <> "OPTIONS").

(** The text the final handler puts between [<pre>] and [</pre>]. *)
Definition error_message (req : Req) : string :=
  replace_double_spaces
    (replace_newlines (escapeHtml ("Cannot " ++ method req ++ " " ++ encodeUrl (path req)))).

Definition page_head : string :=
  "<!DOCTYPE html>" ++ lf ++
  "<html lang=" ++ dquote ++ "en" ++ dquote ++ ">" ++ lf ++
  "<head>" ++ lf ++
  "<meta charset=" ++ dquote ++ "utf-8" ++ dquote ++ ">" ++ lf ++
  "<title>Error</title>" ++ lf ++
  "</head>" ++ lf ++
  "<body>" ++ lf ++
  "<pre>".

Definition page_foot : string :=
  "</pre>" ++ lf ++ "</body>" ++ lf ++ "</html>" ++ lf.

(** What Node's [setHeader] and [removeHeader] check before they touch the
    store ([setHeader] and [removeHeader] above are the store itself): the
    headers must not have been sent, the name must be a token
    ([checkIsHttpToken]) and the value free of control characters
    ([checkInvalidHeaderChar]). *)
Inductive HeaderError : Type :=
| ERR_HTTP_HEADERS_SENT
| ERR_INVALID_HTTP_TOKEN
| ERR_INVALID_CHAR.

Definition is_token_char (c : ascii) : bool :=
  in_range 97 122 c || in_range 65 90 c || in_range 48 57 c
  || existsb (Ascii.eqb c) (list_ascii_of_string "^_`-!#$%&'*+.|~").

Definition checkIsHttpToken (name : string) : bool :=
  negb (name =? "") && all_chars is_token_char name.

Definition checkInvalidHeaderChar (value : string) : bool :=
  negb (all_chars (fun c => (code c =? 9)%Z || in_range 32 126 c || in_range 128 255 c) value).

Definition checked_setHeader (name value : string) (res : Res) : HeaderError + Res :=
  if finished res then inl ERR_HTTP_HEADERS_SENT
  else if negb (checkIsHttpToken name) then inl ERR_INVALID_HTTP_TOKEN
  else if checkInvalidHeaderChar value then inl ERR_INVALID_CHAR
  else inr (setHeader name value res).

Definition checked_removeHeader (name : string) (res : Res) : HeaderError + Res :=
  if finished res then inl ERR_HTTP_HEADERS_SENT
  else inr (removeHeader name res).

(** The names of the headers of a response, in order. *)
Definition header_names (res : Res) : list string := map fst (res_headers res).

(** The 304 of [hello_app g]. *)
Definition hello_not_modified (g : string) : Res :=
  {| statusCode := 304; statusMessage := None;
     res_headers := [("X-Powered-By", "Express"); ("ETag", etag g)];
     body := ""; finished := true |}.

(** The 200 of [hello_app g], with the body or, under HEAD, without. *)
Definition hello_ok (g : string) (isHead : bool) : Res :=
  {| statusCode := 200; statusMessage := None;
     res_headers := [("X-Powered-By", "Express");
                     ("Content-Type", "text/html; charset=utf-8");
                     ("Content-Length", pretty (String.length g));
                     ("ETag", etag g)];
     body := if isHead then "" else g; finished := true |}.

(** The automatic answer to OPTIONS on the route. *)
Definition options_response : Res :=
  {| statusCode := 200; statusMessage := None;
     res_headers := [("X-Powered-By", "Express");
                     ("Allow", "GET,HEAD");
                     ("Content-Type", "text/html; charset=utf-8");
                     ("Content-Length", "8");
                     ("ETag", "W/" ++ dquote ++ "8-ZRAf8oNBS3Bjb/SU2GYZCmbtmXg" ++ dquote)];
     body := "GET,HEAD"; finished := true |}.

(** A character that is no separator of [parseTokenList]. *)
Definition token_char (c : ascii) : bool := negb (is_separator c).

(** [n] spaces. *)
Fixpoint spaces (n : nat) : string :=
  match n with
  | O => EmptyString
  | S n' => String " " (spaces n')
  end.

(** A byte. *)
Definition is_byte (b : Z) : Prop := (0 <= b < 256)%Z.

(** The response of [hello_app g] to a request, read off a run on an empty
    console. *)
Definition hello_respond (g : string) (req : Req) : Res :=
  match app_handle (hello_app g) req [] with
  | Some (res, _) => res
  | None => new_res
  end.

(** The sibling's server once it listens, the line it logs, and its 200. *)
Definition sibling_started : Server :=
  {| srv_app := Sibling.app; port := 5000; inflight := []; written := [];
     signal_listeners := [] |}.

Definition sibling_line : string := "Server is running on http://localhost:5000".

Definition sibling_etag : string :=
  "W/" ++ dquote ++ "1f-qjRMZSAGYVPOoeAfQ0D8cHMWKa0" ++ dquote.

Definition sibling_ok : Res :=
  {| statusCode := 200; statusMessage := None;
     res_headers := [("X-Powered-By", "Express");
                     ("Content-Type", "text/html; charset=utf-8");
                     ("Content-Length", "31");
                     ("ETag", sibling_etag)];
     body := Sibling.greeting; finished := true |}.

(** Requests and lists for the examples. *)
Definition other_tag : string := dquote ++ "0-2jmj7l5rSw0yVb/vlWAYkK/YBwk" ++ dquote.

Definition revalidating_head : Req :=
  mkReq "HEAD" "/" (Some "v=2")
        {[ "if-none-match" := join ", " [other_tag; etag greeting]; "accept" := "*/*" ]}.

Definition reloading_get : Req :=
  mkReq "GET" "/" None {[ "if-none-match" := "*"; "cache-control" := "max-age=0, no-cache" ]}.

Definition options_if_none_match : Req :=
  mkReq "OPTIONS" "/" (Some "x") {[ "if-none-match" := "*" ]}.

Definition get_script : Req :=
  mkReq "GET" "/<script>alert('x')</script>" None ∅.

(** * Properties *)

(** Closed goals are settled by evaluation. *)
Ltac evaluate := vm_compute; reflexivity.

(** ** The packages on known values *)

Example sha1_abc : Sha1.digest_base64 "abc" = "qZk+NkcGgWq6PiVxeFDCbJzQ2J0=".
Proof. evaluate. Qed.

Example sha1_empty : Sha1.digest_base64 "" = "2jmj7l5rSw0yVb/vlWAYkK/YBwk=".
Proof. evaluate. Qed.

Example etag_empty : entitytag "" = dquote ++ "0-2jmj7l5rSw0yVb/vlWAYkK/YBwk" ++ dquote.
Proof. evaluate. Qed.

(** The [Allow] list reads the same in the spelling of Express 4 and in
    that of Express 5. *)
Example allow_spellings :
  parseTokenList "GET,HEAD" = ["GET"; "HEAD"] /\ parseTokenList "GET, HEAD" = ["GET"; "HEAD"].
Proof. split; evaluate. Qed.

Example etag_allow : etag "GET,HEAD" = "W/" ++ dquote ++ "8-ZRAf8oNBS3Bjb/SU2GYZCmbtmXg" ++ dquote.
Proof. evaluate. Qed.

Example greeting_length : String.length greeting = 31.
Proof. reflexivity. Qed.

Example parseTokenList_spaces : parseTokenList " a, b ,c  d," = ["a"; "b"; "c  d"; ""].
Proof. reflexivity. Qed.

Example no_cache_among_directives : CACHE_CONTROL_NO_CACHE "max-age=0,  no-cache " = true.
Proof. reflexivity. Qed.

Example no_cache_inside_a_token : CACHE_CONTROL_NO_CACHE "x-no-cache" = false.
Proof. reflexivity. Qed.

Example fresh_if_none_match_star :
  fresh {[ "if-none-match" := "*" ]} (Some greeting_etag) None = Some true.
Proof. evaluate. Qed.

Example fresh_if_none_match_list :
  fresh {[ "if-none-match" := dquote ++ "0-x" ++ dquote ++ ", " ++ greeting_etag ]}
        (Some greeting_etag) None = Some true.
Proof. evaluate. Qed.

Example stale_if_none_match_other :
  fresh {[ "if-none-match" := dquote ++ "0-x" ++ dquote ]} (Some greeting_etag) None
  = Some false.
Proof. evaluate. Qed.

Example stale_under_no_cache :
  fresh {[ "if-none-match" := "*"; "cache-control" := "no-cache" ]} (Some greeting_etag) None
  = Some false.
Proof. evaluate. Qed.

Example stale_if_modified_since :
  fresh {[ "if-modified-since" := "Sun, 01 Nov 2026 00:00:00 GMT" ]} (Some greeting_etag) None
  = Some false.
Proof. evaluate. Qed.

Example encodeUrl_escapes :
  encodeUrl "/a b%zz%4%41%%41<>#$[" = "/a%20b%25zz%254%2541%25%2541%3C%3E#$[".
Proof. evaluate. Qed.

Example not_found_page_length : String.length (not_found_page get_root) = 139.
Proof. evaluate. Qed.

(** ** [res.send] and the final handler after [expressInit] *)

Lemma etag_greeting : etag greeting = greeting_etag.
Proof. evaluate. Qed.

Lemma res_send_res0 (chunk : string) (req : Req) :
  res_send chunk req res0 =
  match is_fresh req chunk with
  | Some b => Some (sent chunk [] b (method req =? "HEAD"))
  | None => None
  end.
Proof.
  unfold res_send.
  change (truthy (getHeader "Content-Type" res0)) with false. cbv iota zeta.
  change (req_fresh req (send_headers chunk res0)) with (is_fresh req chunk).
  destruct (is_fresh req chunk) as [[|]|]; [| |reflexivity];
    destruct (method req =? "HEAD"); reflexivity.
Qed.

Lemma res_send_allow (chunk : string) (req : Req) :
  res_send chunk req (setHeader "Allow" chunk res0) =
  match is_fresh req chunk with
  | Some b => Some (sent chunk [("Allow", chunk)] b (method req =? "HEAD"))
  | None => None
  end.
Proof.
  unfold res_send.
  change (truthy (getHeader "Content-Type" (setHeader "Allow" chunk res0))) with false.
  cbv iota zeta.
  change (req_fresh req (send_headers chunk (setHeader "Allow" chunk res0)))
    with (is_fresh req chunk).
  destruct (is_fresh req chunk) as [[|]|]; [| |reflexivity];
    destruct (method req =? "HEAD"); reflexivity.
Qed.

Lemma sent_greeting_ok (isHead : bool) : sent greeting [] false isHead = ok_response isHead.
Proof. unfold sent, ok_response. rewrite etag_greeting. reflexivity. Qed.

Lemma sent_greeting_not_modified (isHead : bool) :
  sent greeting [] true isHead = not_modified_response.
Proof. unfold sent, not_modified_response. rewrite etag_greeting. reflexivity. Qed.

Lemma finalhandler_res0 (req : Req) : finalhandler req res0 = not_found_response req.
Proof.
  unfold finalhandler, not_found_response, not_found_page.
  destruct (method req =? "HEAD"); reflexivity.
Qed.

(** ** Freshness *)

Lemma fresh_unconditional (h : gmap string string) (e l : option string) :
  truthy (h !! "if-none-match") || truthy (h !! "if-modified-since") = false ->
  fresh h e l = Some false.
Proof.
  intros H. apply orb_false_elim in H as [Hn Hm].
  unfold fresh. now rewrite Hn, Hm.
Qed.

(** Without [Last-Modified] on the response the date comparison is never
    reached: [fresh] has an answer. *)
Lemma fresh_total (h : gmap string string) (e : option string) :
  exists b, fresh h e None = Some b.
Proof.
  unfold fresh. change (truthy None) with false. cbv iota.
  repeat match goal with
         | |- context [if ?b then _ else _] => destruct b
         end; eauto.
Qed.

Lemma is_fresh_total (req : Req) (chunk : string) : exists b, is_fresh req chunk = Some b.
Proof.
  unfold is_fresh. destruct (negb _ && negb _); [eauto | apply fresh_total].
Qed.

Lemma is_fresh_options (req : Req) (chunk : string) :
  (method req =? "OPTIONS") = true -> is_fresh req chunk = Some false.
Proof.
  intros H. apply String.eqb_eq in H. unfold is_fresh. now rewrite H.
Qed.

(** ** The router on the stack of [app] *)

Lemma app_stack :
  stack app = [Middleware query_mw; Middleware expressInit; RouteLayer (pathRegexp "/") the_route].
Proof. reflexivity. Qed.

(** The route for [/] matches the path [/] and the empty path only. *)
Lemma pathRegexp_root (p : string) : pathRegexp "/" p = (p =? "/") || (p =? "").
Proof.
  unfold pathRegexp.
  change (ends_with_slash (toLowerCase "/")) with true. cbv iota.
  change (toLowerCase "/") with "/". change (drop_last "/") with "".
  assert (Hs : forall c : ascii, Ascii.eqb (lower_char c) "/" = Ascii.eqb c "/").
  { intros c. destruct c as [[] [] [] [] [] [] [] []]; reflexivity. }
  destruct p as [|c [|c' p']]; try reflexivity; simpl.
  - now rewrite Hs.
  - rewrite Hs. now destruct (Ascii.eqb c "/").
Qed.

Lemma handles_method_the_route (m : string) : handles_method the_route m = handled m.
Proof.
  unfold handles_method, handled.
  change (has "head" (methods the_route)) with false.
  destruct (toLowerCase m =? "head") eqn:Hh.
  - cbn [andb negb]. change (has "get" (methods the_route)) with true.
    now rewrite orb_true_r.
  - cbn [andb]. unfold has. cbn [methods the_route existsb].
    now rewrite !orb_false_r.
Qed.

Lemma head_is_handled (m : string) : (m =? "HEAD") = true -> handled m = true.
Proof. intros H. apply String.eqb_eq in H. now subst m. Qed.

(** The two middleware layers pass every request on, with [X-Powered-By] set. *)
Lemma middleware_prefix (req : Req) (c : Console) :
  app_handle app req c = router_next [RouteLayer (pathRegexp "/") the_route] req [] res0 c.
Proof. reflexivity. Qed.

Lemma route_dispatch_handled (req : Req) (c : Console) :
  handled (method req) = true ->
  route_dispatch the_route req res0 c =
  match res_send greeting req res0 with
  | Some r => Some (r, c)
  | None => None
  end.
Proof.
  unfold handled, route_dispatch. intros H.
  change (has "head" (methods the_route)) with false. cbn [negb].
  rewrite andb_true_r.
  assert (Hm : (if toLowerCase (method req) =? "head" then "get"
                else toLowerCase (method req)) = "get").
  { destruct (toLowerCase (method req) =? "head"); [reflexivity|].
    rewrite orb_false_r in H. now apply String.eqb_eq in H. }
  rewrite Hm.
  change (dispatch_next (route_stack the_route) "get" req res0 c)
    with (bind (root_handler req res0)
            (fun res' => if finished res' then ret res' else ret res') c).
  unfold bind, root_handler, lift.
  rewrite res_send_res0.
  destruct (is_fresh req greeting) as [[|]|]; reflexivity.
Qed.

(** [app_handle app] is [answer], and never touches the console. *)
Lemma app_handle_answer (req : Req) (c : Console) :
  app_handle app req c =
  match answer req with
  | Some r => Some (r, c)
  | None => None
  end.
Proof.
  rewrite middleware_prefix. unfold answer.
  cbn [router_next].
  destruct (pathRegexp "/" (path req)); cbn [negb]; [|reflexivity].
  rewrite handles_method_the_route.
  destruct (handled (method req)) eqn:Hh; cbn [negb andb].
  - unfold bind. rewrite (route_dispatch_handled req c Hh).
    rewrite res_send_res0.
    destruct (is_fresh req greeting) as [[|]|]; reflexivity.
  - destruct (method req =? "HEAD") eqn:Hhead.
    { apply head_is_handled in Hhead. congruence. }
    cbn [negb].
    destruct (method req =? "OPTIONS") eqn:Ho.
    + change (appendMethods [] (route_options the_route)) with ["GET"; "HEAD"].
      cbn [done]. rewrite Ho. unfold lift.
      destruct (sendOptionsResponse ["GET"; "HEAD"] req res0); reflexivity.
    + reflexivity.
Qed.

(** Every request stays inside the embedded part of Express. *)
Lemma answer_total (req : Req) : exists r, answer req = Some r.
Proof.
  unfold answer.
  destruct (pathRegexp "/" (path req)); [|eauto].
  destruct (handled (method req)).
  - rewrite res_send_res0. destruct (is_fresh_total req greeting) as [b ->]. eauto.
  - destruct (method req =? "OPTIONS") eqn:Ho; [|eauto].
    unfold sendOptionsResponse. change (join "," ["GET"; "HEAD"]) with "GET,HEAD".
    rewrite res_send_allow, (is_fresh_options req _ Ho). eauto.
Qed.

Lemma app_handle_respond (req : Req) (c : Console) :
  app_handle app req c = Some (respond req, c).
Proof.
  unfold respond. rewrite !app_handle_answer.
  destruct (answer_total req) as [r ->]. reflexivity.
Qed.

(** ** The process *)

(** An event leaves a server of [app] without signal listeners a server of
    [app] without signal listeners, on its port, with its console. *)
Lemma step_app (ev : Event) (s : Server) (c : Console) :
  srv_app s = app -> signal_listeners s = [] ->
  exists p', step ev (Running s c) = Some p'
    /\ console_of p' = c
    /\ match p' with
       | Running s' _ => srv_app s' = app /\ port s' = port s /\ signal_listeners s' = []
       | Exited _ _ _ => True
       end.
Proof.
  intros Ha Hl. destruct ev as [req | | sig]; cbn [step].
  - eexists; repeat split; eauto.
  - destruct (inflight s) as [|req rest].
    + eexists; repeat split; eauto.
    + rewrite Ha, app_handle_respond. eexists; repeat split; eauto.
  - rewrite Hl. eexists; repeat split; eauto.
Qed.

Lemma run_exited (evs : list Event) (st : ExitStatus) (rs : list Res) (c : Console) :
  run evs (Exited st rs c) = Some (Exited st rs c).
Proof. induction evs as [|ev evs IH]; [reflexivity | exact IH]. Qed.

Lemma run_cat (evs evs' : list Event) : forall p : Proc,
  run (evs ++ evs')%list p =
  match run evs p with
  | Some p' => run evs' p'
  | None => None
  end.
Proof.
  induction evs as [|ev evs IH]; intros p; [reflexivity|].
  cbn [Datatypes.app run]. destruct (step ev p); [apply IH | reflexivity].
Qed.

Lemma run_app (evs : list Event) : forall (s : Server) (c : Console),
  srv_app s = app -> signal_listeners s = [] ->
  exists p', run evs (Running s c) = Some p'
    /\ console_of p' = c
    /\ match p' with
       | Running s' _ => srv_app s' = app /\ port s' = port s /\ signal_listeners s' = []
       | Exited _ _ _ => True
       end.
Proof.
  induction evs as [|ev evs IH]; intros s c Ha Hl.
  - exists (Running s c). repeat split; auto.
  - cbn [run]. destruct (step_app ev s c Ha Hl) as (p1 & -> & Hc & Hp).
    destruct p1 as [s1 c1 | code rs c1]; cbn [console_of] in Hc; subst c1.
    + destruct Hp as (Ha1 & Hport & Hl1).
      destruct (IH s1 c Ha1 Hl1) as (p' & Hr & Hc' & Hp').
      exists p'. repeat split; auto.
      destruct p'; auto. destruct Hp' as (? & ? & ?). repeat split; congruence.
    + rewrite run_exited. eexists; repeat split; eauto.
Qed.

(** Requests served one after the other: one response each, [respond] of
    the request, whatever came before. *)
Lemma run_serve (reqs : list Req) : forall (s : Server) (c : Console),
  srv_app s = app -> inflight s = [] ->
  run (serve reqs) (Running s c) =
  Some (Running {| srv_app := app; port := port s; inflight := [];
                   written := (written s ++ map respond reqs)%list;
                   signal_listeners := signal_listeners s |} c).
Proof.
  induction reqs as [|req reqs IH]; intros s c Ha Hi.
  - cbn. rewrite app_nil_r. destruct s; cbn in *. now subst.
  - change (serve (req :: reqs)) with (Arrive req :: Respond :: serve reqs).
    cbn [run step inflight srv_app port written signal_listeners]. rewrite Hi.
    cbn [Datatypes.app].
    rewrite Ha, app_handle_respond.
    rewrite IH by reflexivity. cbn [port written map signal_listeners].
    now rewrite <- app_assoc.
Qed.

Section Startup.

Variable env : gmap string string.
Variable os : Z -> option Errno.

Lemma main_eq :
  main env os =
  match os 3000%Z with
  | Some e => Some (inl e)
  | None => Some (inr (started, [startup_line]))
  end.
Proof.
  unfold main, app_listen. change PORT with 3000%Z.
  destruct (os 3000%Z); reflexivity.
Qed.

Hypothesis bind_ok : os PORT = None.

Lemma boot_serve (reqs : list Req) :
  boot env os (serve reqs) =
  Some (inr (Running {| srv_app := app; port := 3000; inflight := [];
                        written := map respond reqs;
                        signal_listeners := [] |} [startup_line])).
Proof.
  unfold boot. rewrite main_eq. change (os 3000%Z) with (os PORT). rewrite bind_ok.
  now rewrite run_serve.
Qed.

End Startup.

(** ** Strings *)

Lemma str_app_cons (x : ascii) (a b : string) : String x a ++ b = String x (a ++ b).
Proof. reflexivity. Qed.

Lemma str_app_nil_l (b : string) : "" ++ b = b.
Proof. reflexivity. Qed.

Lemma str_app_assoc (a b c : string) : (a ++ b) ++ c = a ++ (b ++ c).
Proof.
  induction a as [|x a IH]; [reflexivity|]. rewrite !str_app_cons. now rewrite IH.
Qed.

Lemma str_app_nil_r (a : string) : a ++ "" = a.
Proof. induction a as [|x a IH]; [reflexivity|]. rewrite str_app_cons. now rewrite IH. Qed.

Lemma str_length_app (a b : string) :
  String.length (a ++ b) = String.length a + String.length b.
Proof.
  induction a as [|x a IH]; [reflexivity|]. rewrite str_app_cons. cbn [String.length].
  now rewrite IH.
Qed.

Lemma substring_zero_length (n : nat) (s : string) : substring n 0 s = "".
Proof.
  revert s. induction n as [|n IH]; intros [|c s]; try reflexivity. cbn. apply IH.
Qed.

Lemma substring_prefix (t post : string) : substring 0 (String.length t) (t ++ post) = t.
Proof.
  induction t as [|c t IH]; [exact (substring_zero_length 0 post)|].
  rewrite str_app_cons. cbn [String.length substring]. now rewrite IH.
Qed.

Lemma substring_middle (pre t post : string) :
  substring (String.length pre) (String.length t) (pre ++ t ++ post) = t.
Proof.
  induction pre as [|c pre IH]; [exact (substring_prefix t post)|].
  rewrite str_app_cons. cbn [String.length substring]. apply IH.
Qed.

Lemma all_chars_app (P : ascii -> bool) (a b : string) :
  all_chars P (a ++ b) = all_chars P a && all_chars P b.
Proof.
  induction a as [|x a IH]; [reflexivity|].
  rewrite str_app_cons. cbn [all_chars]. rewrite IH. now rewrite andb_assoc.
Qed.

Lemma all_chars_substring (P : ascii -> bool) (s : string) :
  all_chars P s = true -> forall n m, all_chars P (substring n m s) = true.
Proof.
  induction s as [|c s IH]; intros H n m.
  - now destruct n, m.
  - cbn in H. apply andb_prop in H as [Hc Hs].
    destruct n as [|n]; [destruct m as [|m]|]; cbn; auto.
    now rewrite Hc, IH.
Qed.

Lemma all_chars_weaken (P Q : ascii -> bool) (s : string) :
  (forall c, P c = true -> Q c = true) -> all_chars P s = true -> all_chars Q s = true.
Proof.
  intros HPQ. induction s as [|c s IH]; [reflexivity|]. cbn.
  intros H. apply andb_prop in H as [Hc Hs]. now rewrite (HPQ c Hc), IH.
Qed.

(** ** The error page *)

Lemma escapeHtml_cons (c : ascii) (s : string) :
  escapeHtml (String c s) = escapeHtml (String c "") ++ escapeHtml s.
Proof. destruct c as [[] [] [] [] [] [] [] []]; reflexivity. Qed.

Lemma replace_double_spaces_cons (c : ascii) (s : string) :
  replace_double_spaces (String c s)
  = if Ascii.eqb c " " then
      match s with
      | String c' s' =>
          if Ascii.eqb c' " " then " &nbsp;" ++ replace_double_spaces s'
          else String c (replace_double_spaces s)
      | EmptyString => String c EmptyString
      end
    else String c (replace_double_spaces s).
Proof.
  destruct c as [[] [] [] [] [] [] [] []]; try reflexivity.
  destruct s as [|c' s']; [reflexivity|].
  destruct c' as [[] [] [] [] [] [] [] []]; reflexivity.
Qed.

Lemma not_found_page_parts (req : Req) :
  not_found_page req = page_head ++ error_message req ++ page_foot.
Proof.
  unfold not_found_page, createHtmlDocument, page_head, page_foot, error_message.
  cbv zeta. now rewrite !str_app_assoc.
Qed.










(** ** The claims *)

(** C1, as amended.  Every GET request for the path [/], whatever its
    query string, is answered in one of two ways, and the console is left
    as it was.  Unless it is a conditional request that Express finds
    fresh, the answer is 200 with [Content-Type: text/html; charset=utf-8]
    and a body that is byte for byte the greeting written in
    [src/index.js]; a fresh one is answered 304 with an empty body.  A
    request without a non-empty [If-None-Match] or [If-Modified-Since] is
    never fresh, whatever its other headers. *)
Theorem get_root_response (req : Req) (c : Console) :
  method req = "GET" -> path req = "/" ->
  exists isFresh,
    fresh (headers req) (Some greeting_etag) None = Some isFresh
    /\ app_handle app req c
       = Some (if isFresh then not_modified_response else ok_response false, c)
    /\ (conditional req = false -> isFresh = false)
    /\ statusCode (ok_response false) = 200%Z
    /\ getHeader "Content-Type" (ok_response false) = Some "text/html; charset=utf-8"
    /\ body (ok_response false) = greeting
    /\ statusCode not_modified_response = 304%Z
    /\ body not_modified_response = "".
Proof.
  intros Hm Hp.
  destruct (fresh_total (headers req) (Some greeting_etag)) as [b Hb].
  exists b. split; [exact Hb|]. split; [|split; [|repeat split]].
  - rewrite app_handle_answer. unfold answer. rewrite Hp, Hm.
    change (pathRegexp "/" "/") with true. change (handled "GET") with true. cbv iota.
    rewrite res_send_res0. unfold is_fresh. rewrite Hm.
    change (negb ("GET" =? "GET") && negb ("GET" =? "HEAD")) with false. cbv iota.
    rewrite etag_greeting, Hb. change ("GET" =? "HEAD") with false.
    destruct b; [now rewrite sent_greeting_not_modified | now rewrite sent_greeting_ok].
  - intros Hc. rewrite (fresh_unconditional _ _ _ Hc) in Hb. congruence.
Qed.

Lemma get_root_response_witness :
  exists isFresh,
    fresh (headers get_root_query) (Some greeting_etag) None = Some isFresh
    /\ app_handle app get_root_query []
       = Some (if isFresh then not_modified_response else ok_response false, [])
    /\ (conditional get_root_query = false -> isFresh = false)
    /\ statusCode (ok_response false) = 200%Z
    /\ getHeader "Content-Type" (ok_response false) = Some "text/html; charset=utf-8"
    /\ body (ok_response false) = greeting
    /\ statusCode not_modified_response = 304%Z
    /\ body not_modified_response = "".
Proof.
  apply (get_root_response get_root_query []); reflexivity.
Defined.

(** C1 fails as stated.  A plain [GET /] is answered with
    [Content-Type: text/html; charset=utf-8], not [text/plain], and with
    the greeting of [src/index.js], which is not ["Hello World!"]; and the
    headers do matter: under [If-None-Match: *] the answer is 304 with an
    empty body. *)
Lemma get_root_is_html_and_may_be_304 :
  method get_root = "GET" /\ path get_root = "/"
  /\ app_handle app get_root [] = Some (ok_response false, [])
  /\ getHeader "Content-Type" (ok_response false) = Some "text/html; charset=utf-8"
  /\ getHeader "Content-Type" (ok_response false) <> Some "text/plain"
  /\ body (ok_response false) <> "Hello World!"
  /\ method get_root_if_none_match = "GET" /\ path get_root_if_none_match = "/"
  /\ app_handle app get_root_if_none_match [] = Some (not_modified_response, [])
  /\ statusCode not_modified_response = 304%Z
  /\ body not_modified_response = "".
Proof.
  repeat split; try discriminate.
Qed.




(** C10, as amended.  A HEAD request for [/] goes through the GET route: it
    gets the status and the headers the same request gets as a GET, and an
    empty body.  The status is 200, with the headers of [GET /], unless the
    request is a conditional one that Express finds fresh, which is
    answered 304 like its GET; it is never 404. *)
Theorem head_root_as_get (req : Req) (c : Console) :
  method req = "HEAD" -> path req = "/" ->
  exists get head,
    app_handle app (with_method "GET" req) c = Some (get, c)
    /\ app_handle app req c = Some (head, c)
    /\ statusCode head = statusCode get
    /\ res_headers head = res_headers get
    /\ body head = ""
    /\ (statusCode head = 200%Z \/ statusCode head = 304%Z)
    /\ (conditional req = false -> head = ok_response true).
Proof.
  intros Hm Hp.
  rewrite !app_handle_answer. unfold answer, with_method. cbn [path method].
  rewrite Hp, Hm.
  change (pathRegexp "/" "/") with true.
  change (handled "GET") with true. change (handled "HEAD") with true. cbv iota.
  rewrite !res_send_res0. unfold is_fresh. cbn [method headers]. rewrite Hm.
  change (negb ("GET" =? "GET") && negb ("GET" =? "HEAD")) with false.
  change (negb ("HEAD" =? "GET") && negb ("HEAD" =? "HEAD")) with false. cbv iota.
  change ("GET" =? "HEAD") with false. change ("HEAD" =? "HEAD") with true.
  destruct (fresh (headers req) (Some (etag greeting)) None) as [[|]|] eqn:Hf.
  - exists (sent greeting [] true false), (sent greeting [] true true).
    rewrite !sent_greeting_not_modified. repeat split; auto.
    intros Hc. rewrite (fresh_unconditional _ _ _ Hc) in Hf. discriminate.
  - exists (sent greeting [] false false), (sent greeting [] false true).
    rewrite !sent_greeting_ok. repeat split; auto.
  - destruct (fresh_total (headers req) (Some (etag greeting))) as [b Hb]. congruence.
Qed.

Lemma head_root_as_get_witness :
  exists get head,
    app_handle app (with_method "GET" head_root) [] = Some (get, [])
    /\ app_handle app head_root [] = Some (head, [])
    /\ statusCode head = statusCode get
    /\ res_headers head = res_headers get
    /\ body head = ""
    /\ (statusCode head = 200%Z \/ statusCode head = 304%Z)
    /\ (conditional head_root = false -> head = ok_response true).
Proof.
  apply (head_root_as_get head_root []); reflexivity.
Defined.

(** C10 fails as stated.  [HEAD /] under [If-None-Match: *] is answered
    304, without [Content-Type] and [Content-Length], and not 200. *)
Lemma head_root_may_be_304 :
  method head_root_if_none_match = "HEAD" /\ path head_root_if_none_match = "/"
  /\ app_handle app head_root_if_none_match [] = Some (not_modified_response, [])
  /\ statusCode not_modified_response = 304%Z
  /\ getHeader "Content-Type" not_modified_response = None.
Proof.
  repeat split.
Qed.

(** C3, as amended.  The port is the constant 3000 of [src/index.js]: the
    process binds 3000 whatever the environment holds, [PORT] included, and
    it binds nothing else: it listens on 3000 when that port can be bound
    and fails with the system's error for 3000 when it cannot. *)
Theorem port_is_constant (env : gmap string string) (os : Z -> option Errno) :
  PORT = 3000%Z
  /\ main env os = main ∅ os
  /\ main env os =
     match os 3000%Z with
     | Some e => Some (inl e)
     | None => Some (inr (started, [startup_line]))
     end
  /\ port started = 3000%Z.
Proof.
  split; [reflexivity|]. split; [reflexivity|]. split; [apply main_eq | reflexivity].
Qed.

(** C3 fails as stated.  With [PORT=8080] in the environment the listener
    is on 3000; and with 3000 taken and 8080 free the start fails, so 8080
    is not what it binds. *)
Lemma port_ignores_environment :
  port_8080 !! "PORT" = Some "8080"
  /\ main port_8080 all_free = Some (inr (started, [startup_line]))
  /\ port started = 3000%Z
  /\ taken 3000 8080 = None
  /\ main port_8080 (taken 3000) = Some (inl EADDRINUSE).
Proof.
  repeat split.
Qed.

(** C5.  The response to a request is a function of the request alone,
    [respond], and handling it changes nothing: whatever the console holds,
    [app] answers [respond req] and leaves the console as it was.  Hence in
    one run [n] repetitions of a request are answered by [n] copies of
    [respond req], and in another run, in another environment and after any
    other requests, the same request is answered [respond req] again. *)
Theorem handler_stateless
    (env env' : gmap string string) (os os' : Z -> option Errno)
    (req : Req) (n : nat) (before : list Req) :
  os PORT = None -> os' PORT = None ->
  (forall c, app_handle app req c = Some (respond req, c))
  /\ (exists s c, boot env os (serve (repeat req n)) = Some (inr (Running s c))
                  /\ written s = repeat (respond req) n)
  /\ (exists s c, boot env' os' (serve (before ++ [req])%list) = Some (inr (Running s c))
                  /\ written s = (map respond before ++ [respond req])%list).
Proof.
  intros Hos Hos'. split; [intros c; apply app_handle_respond|]. split.
  - rewrite (boot_serve env os Hos). eexists _, _. split; [reflexivity|].
    cbn [written]. induction n as [|n IH]; [reflexivity|].
    cbn [repeat map]. now rewrite IH.
  - rewrite (boot_serve env' os' Hos'). eexists _, _. split; [reflexivity|].
    cbn [written]. now rewrite map_app.
Qed.

Lemma handler_stateless_witness :
  (forall c, app_handle app get_root c = Some (respond get_root, c))
  /\ (exists s c, boot ∅ all_free (serve (repeat get_root 3)) = Some (inr (Running s c))
                  /\ written s = repeat (respond get_root) 3)
  /\ (exists s c, boot port_8080 all_free (serve ([post_root; head_root] ++ [get_root])%list)
                    = Some (inr (Running s c))
                  /\ written s = (map respond [post_root; head_root] ++ [respond get_root])%list).
Proof.
  apply (handler_stateless ∅ port_8080 all_free all_free get_root 3 [post_root; head_root]);
    reflexivity.
Defined.

(** C6.  When the bind succeeds the process logs exactly one line, which
    states the port it is bound to, and whatever requests and signals
    follow, that line stays all it has logged: answering requests writes
    responses and nothing else. *)
Theorem one_startup_line (env : gmap string string) (os : Z -> option Errno)
    (evs : list Event) :
  os PORT = None ->
  main env os = Some (inr (started, [startup_line]))
  /\ port started = PORT
  /\ startup_line = "Server is running on http://localhost:" ++ pretty (port started)
  /\ exists p, boot env os evs = Some (inr p) /\ console_of p = [startup_line].
Proof.
  intros Hos. change PORT with 3000%Z in Hos.
  assert (Hmain : main env os = Some (inr (started, [startup_line]))).
  { rewrite main_eq. now rewrite Hos. }
  split; [exact Hmain|]. split; [reflexivity|]. split; [reflexivity|].
  unfold boot. rewrite Hmain.
  destruct (run_app evs started [startup_line] eq_refl eq_refl) as (p & -> & Hc & _).
  now exists p.
Qed.

Lemma one_startup_line_witness :
  main ∅ all_free = Some (inr (started, [startup_line]))
  /\ port started = PORT
  /\ startup_line = "Server is running on http://localhost:" ++ pretty (port started)
  /\ exists p, boot ∅ all_free [Arrive get_root; Respond; Arrive post_root; Respond]
               = Some (inr p)
               /\ console_of p = [startup_line].
Proof.
  apply (one_startup_line ∅ all_free [Arrive get_root; Respond; Arrive post_root; Respond]).
  reflexivity.
Defined.

(** C7.  The route table of [app] is the single entry (get, /), so no two
    of its entries share method and path; it is built by the one [app.get]
    before the process listens, and after any events the server still runs
    that very application. *)
Theorem route_table_fixed (env : gmap string string) (os : Z -> option Errno)
    (evs : list Event) :
  routes (stack app) = [("get", "/")]
  /\ NoDup (routes (stack app))
  /\ match boot env os evs with
     | Some (inr (Running s _)) => srv_app s = app
     | Some _ => True
     | None => False
     end.
Proof.
  split; [reflexivity|]. split.
  - change (routes (stack app)) with [("get", "/")].
    constructor; [apply not_elem_of_nil | constructor].
  - unfold boot. rewrite main_eq. destruct (os 3000%Z); [exact I|].
    destruct (run_app evs started [startup_line] eq_refl eq_refl) as (p & -> & _ & Hp).
    destruct p; [apply Hp | exact I].
Qed.

(** C9, as amended.  [src/index.js] registers no listener for any signal
    and never closes its server.  So whatever has happened since the start,
    a SIGINT or SIGTERM that reaches the running process terminates it on
    the spot: it ends killed by the signal, which a shell reports as status
    128 plus the signal's number (130, 143) and never as 0; the requests in
    flight get no response, and what has been written is what was written
    before the signal, whatever events follow. *)
Theorem signal_exits_at_once (env : gmap string string) (os : Z -> option Errno)
    (before after : list Event) (s : Server) (c : Console) (sig : Signal) :
  boot env os before = Some (inr (Running s c)) ->
  signal_listeners s = []
  /\ boot env os (before ++ Kill sig :: after)%list
     = Some (inr (Exited (KilledBy sig) (written s) c))
  /\ (shell_status (KilledBy sig) =? 0)%Z = false
  /\ shell_status (KilledBy SIGINT) = 130%Z
  /\ shell_status (KilledBy SIGTERM) = 143%Z.
Proof.
  unfold boot. rewrite main_eq. intros H.
  destruct (os 3000%Z); [discriminate|].
  destruct (run_app before started [startup_line] eq_refl eq_refl) as (p & Hr & _ & Hp).
  rewrite Hr in H. injection H as ->. destruct Hp as (_ & _ & Hl).
  split; [exact Hl|]. split; [|split; [now destruct sig | split; reflexivity]].
  rewrite run_cat, Hr. cbn [run step]. rewrite Hl. cbn [listeners_for List.filter map].
  now rewrite run_exited.
Qed.

Lemma signal_exits_at_once_witness :
  signal_listeners (mkServer app 3000 [get_root] [] []) = []
  /\ boot ∅ all_free ([Arrive get_root] ++ Kill SIGTERM :: [Respond])%list
     = Some (inr (Exited (KilledBy SIGTERM) (written (mkServer app 3000 [get_root] [] []))
                         [startup_line]))
  /\ (shell_status (KilledBy SIGTERM) =? 0)%Z = false
  /\ shell_status (KilledBy SIGINT) = 130%Z
  /\ shell_status (KilledBy SIGTERM) = 143%Z.
Proof.
  apply (signal_exits_at_once ∅ all_free [Arrive get_root] [Respond]
           (mkServer app 3000 [get_root] [] []) [startup_line] SIGTERM).
  reflexivity.
Defined.

(** C9 fails as stated.  A [GET /] is in flight when SIGTERM arrives: the
    process is killed by the signal (status 143 in a shell, not 0) and has
    written no response, while the same request, given its turn, is
    answered.  What the claim describes takes a listener that the file does
    not register: with [process.on('SIGTERM', ...)] closing the server, the
    same events end in exit code 0 with the response written. *)
Lemma sigterm_drops_the_request_in_flight :
  boot ∅ all_free [Arrive get_root; Kill SIGTERM; Respond]
    = Some (inr (Exited (KilledBy SIGTERM) [] [startup_line]))
  /\ shell_status (KilledBy SIGTERM) = 143%Z
  /\ boot ∅ all_free [Arrive get_root; Respond]
    = Some (inr (Running {| srv_app := app; port := 3000; inflight := [];
                            written := [ok_response false];
                            signal_listeners := [] |} [startup_line]))
  /\ run [Arrive get_root; Kill SIGTERM; Respond]
         (Running (process_on SIGTERM (Graceful 0) started) [startup_line])
    = Some (Exited (ExitCode 0) [ok_response false] [startup_line]).
Proof.
  repeat split.
Qed.

(** * Beyond the claims: both programs, for every greeting *)

Lemma app_is_hello : app = hello_app greeting.
Proof. reflexivity. Qed.

Lemma sibling_is_hello : Sibling.app = hello_app Sibling.greeting.
Proof. reflexivity. Qed.

Section Hello.

Variable g : string.

Lemma hello_handles_method (m : string) : handles_method (hello_route g) m = handled m.
Proof. exact (handles_method_the_route m). Qed.

Lemma hello_middleware_prefix (req : Req) (c : Console) :
  app_handle (hello_app g) req c
  = router_next [RouteLayer (pathRegexp "/") (hello_route g)] req [] res0 c.
Proof. reflexivity. Qed.

Lemma hello_dispatch_handled (req : Req) (c : Console) :
  handled (method req) = true ->
  route_dispatch (hello_route g) req res0 c =
  match res_send g req res0 with
  | Some r => Some (r, c)
  | None => None
  end.
Proof.
  unfold handled, route_dispatch. intros H.
  change (has "head" (methods (hello_route g))) with false. cbn [negb].
  rewrite andb_true_r.
  assert (Hm : (if toLowerCase (method req) =? "head" then "get"
                else toLowerCase (method req)) = "get").
  { destruct (toLowerCase (method req) =? "head"); [reflexivity|].
    rewrite orb_false_r in H. now apply String.eqb_eq in H. }
  rewrite Hm.
  change (dispatch_next (route_stack (hello_route g)) "get" req res0 c)
    with (bind (hello_handler g req res0)
            (fun res' => if finished res' then ret res' else ret res') c).
  unfold bind, hello_handler, lift.
  rewrite res_send_res0.
  destruct (is_fresh req g) as [[|]|]; reflexivity.
Qed.

Lemma hello_handle_answer (req : Req) (c : Console) :
  app_handle (hello_app g) req c =
  match hello_answer g req with
  | Some r => Some (r, c)
  | None => None
  end.
Proof.
  rewrite hello_middleware_prefix. unfold hello_answer.
  cbn [router_next].
  destruct (pathRegexp "/" (path req)); cbn [negb]; [|reflexivity].
  rewrite hello_handles_method.
  destruct (handled (method req)) eqn:Hh; cbn [negb andb].
  - unfold bind. rewrite (hello_dispatch_handled req c Hh).
    rewrite res_send_res0.
    destruct (is_fresh req g) as [[|]|]; reflexivity.
  - destruct (method req =? "HEAD") eqn:Hhead.
    { apply head_is_handled in Hhead. congruence. }
    cbn [negb].
    destruct (method req =? "OPTIONS") eqn:Ho.
    + change (appendMethods [] (route_options (hello_route g))) with ["GET"; "HEAD"].
      cbn [done]. rewrite Ho. unfold lift.
      destruct (sendOptionsResponse ["GET"; "HEAD"] req res0); reflexivity.
    + reflexivity.
Qed.

Lemma sent_hello_ok (isHead : bool) : sent g [] false isHead = hello_ok g isHead.
Proof. reflexivity. Qed.

Lemma sent_hello_not_modified (isHead : bool) : sent g [] true isHead = hello_not_modified g.
Proof. reflexivity. Qed.

Lemma sent_options : sent "GET,HEAD" [("Allow", "GET,HEAD")] false false = options_response.
Proof. vm_compute. reflexivity. Qed.

End Hello.

(** The three ways [hello_app g] answers. *)
Lemma hello_cases (g : string) (req : Req) :
  (unrouted req /\ hello_answer g req = Some (not_found_response req))
  \/ (~ unrouted req /\ method req = "OPTIONS"
      /\ hello_answer g req = Some options_response)
  \/ (~ unrouted req /\ handled (method req) = true
      /\ exists b, is_fresh req g = Some b
           /\ hello_answer g req
              = Some (if b then hello_not_modified g
                      else hello_ok g (method req =? "HEAD"))).
Proof.
  unfold hello_answer, unrouted. rewrite pathRegexp_root.
  destruct (path req =? "/") eqn:Hp; [|destruct (path req =? "") eqn:He]; cbn [orb].
  3:{ left. apply String.eqb_neq in Hp, He. rewrite finalhandler_res0. auto. }
  all: assert (Hpath : ~ (path req <> "/" /\ path req <> ""))
         by (first [apply String.eqb_eq in Hp | apply String.eqb_eq in He]; tauto).
  all: destruct (handled (method req)) eqn:Hh.
  all: try (right; right; split;
            [ intros [H | (Hg & Hhd & _)]; [tauto|];
              unfold handled in Hh; apply String.eqb_neq in Hg, Hhd;
              rewrite Hg, Hhd in Hh; discriminate
            | split; [reflexivity|];
              rewrite res_send_res0;
              destruct (is_fresh_total req g) as [b Hb]; rewrite Hb;
              exists b; split; [reflexivity|]; now destruct b ]).
  all: destruct (method req =? "OPTIONS") eqn:Ho.
  all: try (right; left; apply String.eqb_eq in Ho as Ho'; split;
            [ intros [H | (_ & _ & Hno)]; tauto
            | split; [exact Ho'|];
              unfold sendOptionsResponse; change (join "," ["GET"; "HEAD"]) with "GET,HEAD";
              rewrite res_send_allow, (is_fresh_options req _ Ho);
              apply String.eqb_eq in Ho; rewrite Ho;
              change ("OPTIONS" =? "HEAD") with false; now rewrite sent_options ]).
  all: left; unfold handled in Hh; apply orb_false_elim in Hh as [Hg Hhd];
       apply String.eqb_neq in Hg, Hhd, Ho; rewrite finalhandler_res0; auto.
Qed.

Lemma fresh_no_cache (h : gmap string string) (e l : option string) :
  CACHE_CONTROL_NO_CACHE (default "" (h !! "cache-control")) = true ->
  fresh h e l = Some false.
Proof.
  intros H. unfold fresh.
  destruct (negb (truthy (h !! "if-modified-since")) && negb (truthy (h !! "if-none-match")));
    [reflexivity|].
  assert (Ht : truthy (h !! "cache-control") = true).
  { destruct (h !! "cache-control") as [[|a s]|]; try reflexivity; discriminate H. }
  now rewrite Ht, H.
Qed.

Lemma is_fresh_true (req : Req) (g : string) :
  is_fresh req g = Some true ->
  (method req = "GET" \/ method req = "HEAD")
  /\ conditional req = true /\ no_cache req = false.
Proof.
  unfold is_fresh. intros H.
  destruct (method req =? "GET") eqn:Hg; [|destruct (method req =? "HEAD") eqn:Hh];
    cbn [negb andb] in H; try discriminate.
  all: split; [first [apply String.eqb_eq in Hg | apply String.eqb_eq in Hh]; tauto|].
  all: split.
  all: try (destruct (conditional req) eqn:Hc; [reflexivity|];
            unfold conditional in Hc; rewrite (fresh_unconditional _ _ _ Hc) in H; discriminate).
  all: destruct (no_cache req) eqn:Hn; [|reflexivity];
       unfold no_cache in Hn; rewrite (fresh_no_cache _ _ _ Hn) in H; discriminate.
Qed.

Lemma never_routed_unrouted (req : Req) : never_routed req -> unrouted req.
Proof. unfold never_routed, unrouted. tauto. Qed.

Lemma routed_not_unrouted (req : Req) :
  path req = "/" ->
  method req = "GET" \/ method req = "HEAD" \/ method req = "OPTIONS" ->
  ~ unrouted req.
Proof.
  intros Hp Hm [[Hu _] | (Hg & Hh & Ho)]; [congruence|].
  destruct Hm as [Hm | [Hm | Hm]]; rewrite Hm in *; [now apply Hg | now apply Hh | now apply Ho].
Qed.

(** X1.  Whatever the greeting, every request that Node hands to the
    application (so not CONNECT) gets one finished response, and the
    console is left as it was.  Its status is 200, 304 or 404: always 404
    when the path is none of [/], the empty path and [//], or the method is
    none of GET, HEAD and OPTIONS, and never 404 for GET, HEAD and OPTIONS
    on [/]. *)
Theorem status_follows_routing (g : string) (req : Req) (c : Console) :
  method req <> "CONNECT" ->
  exists res,
    app_handle (hello_app g) req c = Some (res, c)
    /\ finished res = true
    /\ (statusCode res = 200%Z \/ statusCode res = 304%Z \/ statusCode res = 404%Z)
    /\ (never_routed req -> statusCode res = 404%Z)
    /\ (path req = "/" ->
        method req = "GET" \/ method req = "HEAD" \/ method req = "OPTIONS" ->
        statusCode res = 200%Z \/ statusCode res = 304%Z).
Proof.
  intros _. rewrite hello_handle_answer.
  destruct (hello_cases g req) as [[Hu ->] | [(Hr & Hm & ->) | (Hr & Hh & b & Hb & ->)]].
  - eexists. split; [reflexivity|]. split; [reflexivity|].
    split; [right; right; reflexivity|]. split; [reflexivity|].
    intros Hp Hm. now destruct (routed_not_unrouted req Hp Hm).
  - eexists. split; [reflexivity|]. split; [reflexivity|].
    split; [left; reflexivity|].
    split; [intros Hn; now destruct (Hr (never_routed_unrouted req Hn)) | now left].
  - eexists. split; [reflexivity|]. destruct b.
    + split; [reflexivity|]. split; [right; left; reflexivity|].
      split; [intros Hn; now destruct (Hr (never_routed_unrouted req Hn)) | now right].
    + split; [reflexivity|]. split; [left; reflexivity|].
      split; [intros Hn; now destruct (Hr (never_routed_unrouted req Hn)) | now left].
Qed.

(** X2.  A 304 is only ever the answer to a GET or HEAD for the route that
    carries a validator and no [Cache-Control: no-cache]; it has no body,
    no [Content-Type] and no [Content-Length], and keeps the [ETag]. *)
Theorem not_modified_only_when_asked (g : string) (req : Req) (c : Console) :
  exists res,
    app_handle (hello_app g) req c = Some (res, c)
    /\ (statusCode res = 304%Z ->
        (method req = "GET" \/ method req = "HEAD")
        /\ (path req = "/" \/ path req = "")
        /\ conditional req = true
        /\ no_cache req = false
        /\ res = hello_not_modified g).
Proof.
  rewrite hello_handle_answer.
  destruct (hello_cases g req) as [[Hu ->] | [(Hr & Hm & ->) | (Hr & Hh & b & Hb & ->)]].
  - eexists. split; [reflexivity|]. discriminate.
  - eexists. split; [reflexivity|]. discriminate.
  - eexists. split; [reflexivity|]. destruct b; [|discriminate]. intros _.
    destruct (is_fresh_true req g Hb) as (Hm & Hc & Hn).
    repeat split; auto.
    unfold unrouted in Hr.
    destruct (String.eqb_spec (path req) "/"); [tauto|].
    destruct (String.eqb_spec (path req) ""); tauto.
Qed.

(** X3.  A HEAD request and a 304 never get a body; in every other response
    [Content-Length] is the decimal length of the body in bytes, and a 304
    has no [Content-Length]. *)
Theorem content_length_matches_body (g : string) (req : Req) (c : Console) :
  exists res,
    app_handle (hello_app g) req c = Some (res, c)
    /\ (method req = "HEAD" -> body res = "")
    /\ (statusCode res = 304%Z -> body res = "" /\ getHeader "Content-Length" res = None)
    /\ (statusCode res <> 304%Z ->
        method req <> "HEAD" ->
        getHeader "Content-Length" res = Some (pretty (String.length (body res)))).
Proof.
  rewrite hello_handle_answer.
  destruct (hello_cases g req) as [[Hu ->] | [(Hr & Hm & ->) | (Hr & Hh & b & Hb & ->)]].
  - eexists. split; [reflexivity|]. unfold not_found_response. cbn [body statusCode].
    split; [intros ->; reflexivity|]. split; [discriminate|].
    intros _ Hne. apply String.eqb_neq in Hne. rewrite Hne. reflexivity.
  - eexists. split; [reflexivity|]. rewrite Hm.
    split; [discriminate|]. split; [discriminate|]. reflexivity.
  - eexists. split; [reflexivity|]. destruct b.
    + split; [reflexivity|]. split; [split; reflexivity|]. intros H. now contradiction H.
    + unfold hello_ok. cbn [body statusCode].
      split; [intros ->; reflexivity|]. split; [discriminate|].
      intros _ Hne. apply String.eqb_neq in Hne. rewrite Hne. reflexivity.
Qed.

(** X4.  The headers of the response to a request other than OPTIONS are
    decided by its status: a 404 carries the two security headers,
    [Content-Type] and [Content-Length]; a 304 carries the [ETag] and
    neither of those two; a 200 carries [Content-Type], [Content-Length]
    and [ETag].  An OPTIONS answered 200 carries [Allow].  On every
    response no name occurs twice, and [X-Powered-By: Express] is there. *)
Theorem header_profile (g : string) (req : Req) (c : Console) :
  exists res,
    app_handle (hello_app g) req c = Some (res, c)
    /\ (method req <> "OPTIONS" ->
        header_names res =
        (if (statusCode res =? 404)%Z then
           ["X-Powered-By"; "Content-Security-Policy"; "X-Content-Type-Options";
            "Content-Type"; "Content-Length"]
         else if (statusCode res =? 304)%Z then ["X-Powered-By"; "ETag"]
         else ["X-Powered-By"; "Content-Type"; "Content-Length"; "ETag"]))
    /\ (method req = "OPTIONS" -> statusCode res = 200%Z ->
        exists allow, getHeader "Allow" res = Some allow)
    /\ NoDup (map toLowerCase (header_names res))
    /\ getHeader "X-Powered-By" res = Some "Express".
Proof.
  rewrite hello_handle_answer.
  destruct (hello_cases g req) as [[Hu ->] | [(Hr & Hm & ->) | (Hr & Hh & b & Hb & ->)]].
  - eexists. split; [reflexivity|]. split; [reflexivity|].
    split; [discriminate|]. split; [|reflexivity].
    apply (bool_decide_unpack _). vm_compute. exact I.
  - eexists. split; [reflexivity|]. split; [intros Hne; now destruct (Hne Hm)|].
    split; [intros _ _; now eexists|]. split; [|reflexivity].
    apply (bool_decide_unpack _). vm_compute. exact I.
  - assert (Ho : method req <> "OPTIONS").
    { intros Ho. rewrite Ho in Hh. discriminate. }
    eexists. split; [reflexivity|]. destruct b.
    + split; [reflexivity|]. split; [intros Ho'; now destruct (Ho Ho')|].
      split; [|reflexivity].
      apply (bool_decide_unpack _). vm_compute. exact I.
    + split; [reflexivity|]. split; [intros Ho'; now destruct (Ho Ho')|].
      split; [|reflexivity].
      apply (bool_decide_unpack _). vm_compute. exact I.
Qed.

(** X7.  OPTIONS on [/] is answered by the router itself, whatever the
    greeting, the query string and the headers (a validator does not make
    it a 304): 200 with an [Allow] header that, read as a comma-separated
    list, is GET and HEAD, the same text as body, and its length as
    [Content-Length]; HEAD is listed although only a GET handler is
    registered. *)
Theorem options_lists_get_and_head (g : string) (req : Req) (c : Console) :
  method req = "OPTIONS" -> path req = "/" ->
  exists res allow,
    app_handle (hello_app g) req c = Some (res, c)
    /\ statusCode res = 200%Z
    /\ getHeader "Allow" res = Some allow
    /\ parseTokenList allow = ["GET"; "HEAD"]
    /\ body res = allow
    /\ getHeader "Content-Length" res = Some (pretty (String.length allow)).
Proof.
  intros Hm Hp. exists options_response, "GET,HEAD".
  split; [|repeat split].
  rewrite hello_handle_answer.
  destruct (hello_cases g req) as [[Hu _] | [(Hr & _ & ->) | (Hr & Hh & _)]].
  - exfalso. destruct Hu as [[Hu _] | (_ & _ & Hu)]; congruence.
  - reflexivity.
  - rewrite Hm in Hh. discriminate.
Qed.

(** ** [parseTokenList] reads back what [join] writes *)

Lemma loop_spaces (k : nat) : forall (str r : string) (i : nat) (acc : list string),
  parseTokenList_loop str (spaces k ++ r) i i i acc
  = parseTokenList_loop str r (i + k) (i + k) (i + k) acc.
Proof.
  induction k as [|k IH]; intros str r i acc.
  - cbn [spaces]. rewrite str_app_nil_l. now rewrite Nat.add_0_r.
  - cbn [spaces]. rewrite str_app_cons. cbn [parseTokenList_loop].
    change (Ascii.eqb " " " ") with true. cbv iota. rewrite Nat.eqb_refl.
    rewrite IH. now replace (S i + k) with (i + S k) by lia.
Qed.

Lemma loop_token (t : string) : forall (str r : string) (i st en : nat) (acc : list string),
  all_chars token_char t = true ->
  parseTokenList_loop str (t ++ r) i st en acc
  = parseTokenList_loop str r (i + String.length t) st
      (match t with EmptyString => en | String _ _ => i + String.length t end) acc.
Proof.
  induction t as [|c t IH]; intros str r i st en acc H.
  - rewrite str_app_nil_l. cbn [String.length]. now rewrite Nat.add_0_r.
  - cbn [all_chars] in H. apply andb_prop in H as [Hc Ht].
    unfold token_char, is_separator in Hc. apply negb_true_iff, orb_false_elim in Hc as [Hs Hk].
    rewrite str_app_cons. cbn [parseTokenList_loop]. rewrite Hs, Hk.
    rewrite (IH _ _ _ _ _ _ Ht). cbn [String.length].
    replace (S i + String.length t) with (i + S (String.length t)) by lia.
    destruct t; [|reflexivity]. cbn [String.length]. now replace (i + 1) with (S i) by lia.
Qed.

Lemma parseTokenList_loop_join (k : nat) (ts : list string) :
  forall (pre : string) (acc : list string),
  ts <> [] ->
  Forall (fun t => all_chars token_char t = true) ts ->
  parseTokenList_loop (pre ++ join ("," ++ spaces k) ts) (join ("," ++ spaces k) ts)
    (String.length pre) (String.length pre) (String.length pre) acc
  = (acc ++ ts)%list.
Proof.
  induction ts as [|t ts IH]; intros pre acc Hne Hall; [congruence|].
  inversion Hall as [|? ? Ht Hts]; subst.
  destruct ts as [|t2 ts].
  - cbn [join]. rewrite <- (str_app_nil_r t) at 2.
    rewrite (loop_token t _ _ _ _ _ _ Ht). cbn [parseTokenList_loop]. f_equal. f_equal.
    destruct t as [|c t].
    + rewrite Nat.sub_diag. apply substring_zero_length.
    + replace (String.length pre + String.length (String c t) - String.length pre)
        with (String.length (String c t)) by lia.
      rewrite <- (str_app_nil_r (String c t)) at 2. apply substring_middle.
  - change (join ("," ++ spaces k) (t :: t2 :: ts))
      with (t ++ ("," ++ spaces k) ++ join ("," ++ spaces k) (t2 :: ts)).
    set (J := join ("," ++ spaces k) (t2 :: ts)) in *.
    rewrite (loop_token t _ _ _ _ _ _ Ht).
    rewrite str_app_assoc.
    change ("," ++ spaces k ++ J) with (String "," (spaces k ++ J)).
    cbn [parseTokenList_loop].
    change (Ascii.eqb "," " ") with false. change (Ascii.eqb "," ",") with true. cbv iota.
    rewrite loop_spaces.
    assert (Hsub : substring (String.length pre)
                     (match t with
                      | EmptyString => String.length pre
                      | String _ _ => String.length pre + String.length t
                      end - String.length pre)
                     (pre ++ t ++ String "," (spaces k ++ J)) = t).
    { destruct t as [|c t].
      - rewrite Nat.sub_diag. apply substring_zero_length.
      - replace (String.length pre + String.length (String c t) - String.length pre)
          with (String.length (String c t)) by lia.
        apply substring_middle. }
    rewrite Hsub.
    assert (Hlen : forall n, String.length (spaces n) = n).
    { induction n as [|n IHn]; [reflexivity|]. cbn. now rewrite IHn. }
    replace (pre ++ t ++ String "," (spaces k ++ J))
      with ((pre ++ t ++ String "," (spaces k)) ++ J)
      by (now rewrite !str_app_assoc, !str_app_cons, ?str_app_assoc).
    replace (S (String.length pre + String.length t) + k)
      with (String.length (pre ++ t ++ String "," (spaces k)))
      by (rewrite !str_length_app; cbn [String.length]; rewrite Hlen; lia).
    rewrite IH; [|discriminate|assumption].
    now rewrite <- app_assoc.
Qed.

(** ** The entity tag is one token *)

Lemma below_all (f : Z -> bool) (n : nat) :
  forallb (fun k => f (Z.of_nat k)) (seq 0 n) = true ->
  forall d, (0 <= d < Z.of_nat n)%Z -> f d = true.
Proof.
  intros H d Hd. rewrite forallb_forall in H.
  specialize (H (Z.to_nat d)). rewrite Z2Nat.id in H by lia.
  apply H. apply in_seq. lia.
Qed.

Lemma hex_digit_token (d : Z) : (0 <= d < 16)%Z -> token_char (hex_digit false d) = true.
Proof. apply (below_all (fun d => token_char (hex_digit false d)) 16). reflexivity. Qed.

Lemma b64_char_token (k : Z) : (0 <= k < 64)%Z -> token_char (Sha1.b64_char k) = true.
Proof. apply (below_all (fun k => token_char (Sha1.b64_char k)) 64). reflexivity. Qed.

Lemma to_hex_fuel_token (fuel : nat) : forall (n : Z) (acc : string),
  all_chars token_char acc = true ->
  all_chars token_char (to_hex_fuel fuel n acc) = true.
Proof.
  induction fuel as [|fuel IH]; intros n acc Hacc; [exact Hacc|].
  cbn [to_hex_fuel].
  assert (Hd : all_chars token_char (String (hex_digit false (n mod 16)) acc) = true).
  { cbn [all_chars]. rewrite Hacc, hex_digit_token; [reflexivity|].
    apply Z.mod_pos_bound. lia. }
  destruct (n / 16 =? 0)%Z; [exact Hd | now apply IH].
Qed.

Lemma to_hex_token (n : nat) : all_chars token_char (to_hex n) = true.
Proof. apply to_hex_fuel_token. reflexivity. Qed.

Lemma be_bytes_bytes (n : nat) (x : Z) : Forall is_byte (Sha1.be_bytes n x).
Proof.
  unfold Sha1.be_bytes. apply Forall_forall. intros b Hb.
  apply list_elem_of_In, in_map_iff in Hb as (i & <- & _).
  apply Z.mod_pos_bound. lia.
Qed.

Lemma digest_bytes (s : string) : Forall is_byte (Sha1.digest s).
Proof.
  unfold Sha1.digest.
  destruct (Sha1.blocks _ _ _) as [[[[a b] c] d] e].
  repeat (apply Forall_app; split); apply be_bytes_bytes.
Qed.

Lemma base64_token (n : nat) : forall bs : list Z,
  length bs <= n -> Forall is_byte bs ->
  all_chars (fun c => token_char c) (Sha1.base64 bs) = true.
Proof.
  induction n as [|n IH]; intros bs Hlen Hb.
  - destruct bs; [reflexivity | cbn in Hlen; lia].
  - destruct bs as [|a [|b [|c rest]]]; [reflexivity| | |].
    + inversion Hb as [|? ? Ha _]; subst. unfold is_byte in Ha.
      cbn [Sha1.base64 all_chars].
      rewrite !b64_char_token; [reflexivity | |]; Z.div_mod_to_equations; lia.
    + inversion Hb as [|? ? Ha Hb']; subst. inversion Hb' as [|? ? Hb0 _]; subst.
      unfold is_byte in Ha, Hb0.
      cbn [Sha1.base64 all_chars].
      rewrite !b64_char_token; [reflexivity | | |]; Z.div_mod_to_equations; lia.
    + inversion Hb as [|? ? Ha Hb']; subst. inversion Hb' as [|? ? Hb0 Hb'']; subst.
      inversion Hb'' as [|? ? Hc Hrest]; subst.
      unfold is_byte in Ha, Hb0, Hc.
      cbn [Sha1.base64 all_chars].
      rewrite IH; [| cbn in Hlen; lia | assumption].
      rewrite !b64_char_token; [reflexivity | | | |]; Z.div_mod_to_equations; lia.
Qed.

Lemma etag_is_token (g : string) : all_chars token_char (etag g) = true.
Proof.
  unfold etag, entitytag.
  rewrite !all_chars_app.
  rewrite to_hex_token.
  rewrite (all_chars_substring token_char (Sha1.digest_base64 g)).
  - reflexivity.
  - apply (base64_token (length (Sha1.digest g))); [lia | apply digest_bytes].
Qed.

Lemma etag_matches_refl (e : string) : etag_matches e e = true.
Proof. unfold etag_matches. now rewrite String.eqb_refl. Qed.

Lemma join_not_empty (sep t : string) (ts : list string) :
  In t ts -> t <> "" -> join sep ts <> "".
Proof.
  induction ts as [|x ts IH]; [intros []|].
  intros Hin Hne. destruct ts as [|y ts].
  - destruct Hin as [->|[]]. exact Hne.
  - change (join sep (x :: y :: ts)) with (x ++ sep ++ join sep (y :: ts)).
    destruct Hin as [->|Hin].
    + destruct t; [congruence | discriminate].
    + specialize (IH Hin Hne). destruct x; [|discriminate].
      rewrite str_app_nil_l. destruct sep; [exact IH | discriminate].
Qed.

(** ** Revalidation *)

Lemma etag_not_empty (g : string) : etag g <> "".
Proof. discriminate. Qed.

Lemma fresh_validated (h : gmap string string) (e : string) (l : option string)
    (k : nat) (ts : list string) :
  e <> "" ->
  truthy (h !! "if-modified-since") = false ->
  CACHE_CONTROL_NO_CACHE (default "" (h !! "cache-control")) = false ->
  h !! "if-none-match" = Some "*"
  \/ (h !! "if-none-match" = Some (join ("," ++ spaces k) ts)
      /\ In e ts /\ Forall (fun t => all_chars token_char t = true) ts) ->
  fresh h (Some e) l = Some true.
Proof.
  intros He Hims Hcc Hinm. unfold fresh. rewrite Hims, Hcc, andb_false_r.
  assert (Hte : truthy (Some e) = true) by (destruct e; [congruence | reflexivity]).
  destruct Hinm as [-> | (-> & Hin & Htok)].
  - reflexivity.
  - assert (Hj : truthy (Some (join ("," ++ spaces k) ts)) = true).
    { pose proof (join_not_empty ("," ++ spaces k) e ts Hin He) as Hne.
      destruct (join _ ts); [congruence | reflexivity]. }
    assert (Hparse : parseTokenList (join ("," ++ spaces k) ts) = ts).
    { unfold parseTokenList.
      refine (parseTokenList_loop_join k ts "" [] _ Htok). intros ->. destruct Hin. }
    set (J := join ("," ++ spaces k) ts) in *.
    change (default "" (Some J)) with J. change (default "" (Some e)) with e.
    rewrite Hj, Hparse, Hte. cbn [negb andb].
    assert (Hex : existsb (etag_matches e) ts = true).
    { apply existsb_exists. exists e. split; [exact Hin | apply etag_matches_refl]. }
    rewrite Hex. cbn [negb orb]. now rewrite andb_false_r.
Qed.

(** X5.  Revalidation works: a GET or HEAD for [/] whose [If-None-Match] is
    [*], or a comma-separated list of tags that has the tag the server
    issues for its greeting among them, is answered 304 with that tag and
    no body, provided it has no [If-Modified-Since] and does not ask for
    [no-cache]. *)
Theorem revalidation_is_not_modified (g : string) (req : Req) (c : Console)
    (k : nat) (ts : list string) :
  method req = "GET" \/ method req = "HEAD" ->
  path req = "/" ->
  headers req !! "if-none-match" = Some "*"
  \/ (headers req !! "if-none-match" = Some (join ("," ++ spaces k) ts)
      /\ In (etag g) ts /\ Forall (fun t => all_chars token_char t = true) ts) ->
  truthy (headers req !! "if-modified-since") = false ->
  no_cache req = false ->
  app_handle (hello_app g) req c = Some (hello_not_modified g, c)
  /\ statusCode (hello_not_modified g) = 304%Z
  /\ body (hello_not_modified g) = ""
  /\ getHeader "ETag" (hello_not_modified g) = Some (etag g).
Proof.
  intros Hm Hp Hinm Hims Hcc. split; [|repeat split].
  rewrite hello_handle_answer. unfold hello_answer. rewrite Hp.
  change (pathRegexp "/" "/") with true. cbv iota.
  assert (Hh : handled (method req) = true) by (destruct Hm as [-> | ->]; reflexivity).
  rewrite Hh, res_send_res0.
  assert (Hf : is_fresh req g = Some true).
  { unfold is_fresh.
    assert (Hneg : negb (method req =? "GET") && negb (method req =? "HEAD") = false)
      by (destruct Hm as [-> | ->]; reflexivity).
    rewrite Hneg. exact (fresh_validated _ _ _ k ts (etag_not_empty g) Hims Hcc Hinm). }
  now rewrite Hf.
Qed.

(** X6.  [Cache-Control: no-cache] forces the full response: a GET or HEAD
    for [/] that carries the directive is answered 200, with the greeting
    as body under GET, whatever validators it carries. *)
Theorem no_cache_forces_full_response (g : string) (req : Req) (c : Console) :
  method req = "GET" \/ method req = "HEAD" ->
  path req = "/" ->
  no_cache req = true ->
  app_handle (hello_app g) req c = Some (hello_ok g (method req =? "HEAD"), c)
  /\ statusCode (hello_ok g (method req =? "HEAD")) = 200%Z
  /\ (method req = "GET" -> body (hello_ok g (method req =? "HEAD")) = g).
Proof.
  intros Hm Hp Hcc. split; [|split; [reflexivity | intros ->; reflexivity]].
  rewrite hello_handle_answer. unfold hello_answer. rewrite Hp.
  change (pathRegexp "/" "/") with true. cbv iota.
  assert (Hh : handled (method req) = true) by (destruct Hm as [-> | ->]; reflexivity).
  rewrite Hh, res_send_res0.
  assert (Hf : is_fresh req g = Some false).
  { unfold is_fresh.
    assert (Hneg : negb (method req =? "GET") && negb (method req =? "HEAD") = false)
      by (destruct Hm as [-> | ->]; reflexivity).
    rewrite Hneg. now apply fresh_no_cache. }
  now rewrite Hf.
Qed.

(** X12.  [parseTokenList] reads back what [join] writes: tokens without
    space and comma, joined by a comma and any number of spaces, come back
    as they were, the empty token included. *)
Theorem token_list_round_trip (k : nat) (ts : list string) :
  ts <> [] ->
  Forall (fun t => all_chars token_char t = true) ts ->
  parseTokenList (join ("," ++ spaces k) ts) = ts.
Proof.
  intros Hne Hall. exact (parseTokenList_loop_join k ts "" [] Hne Hall).
Qed.

(** ** What reaches the error page *)

Lemma encodeURI_char_output (c : ascii) :
  all_chars is_url_output (encodeURI_char c) = true.
Proof. destruct c as [[] [] [] [] [] [] [] []]; reflexivity. Qed.

Lemma is_hex_output (c : ascii) : is_hex c = true -> is_url_output c = true.
Proof. destruct c as [[] [] [] [] [] [] [] []]; intros H; try reflexivity; discriminate H. Qed.

Lemma stays_output (c : ascii) : encodeUrl_stays c = true -> is_url_output c = true.
Proof. destruct c as [[] [] [] [] [] [] [] []]; intros H; try reflexivity; discriminate H. Qed.

Lemma stays_2_output (c : ascii) : encodeUrl_stays_2 c = true -> is_url_output c = true.
Proof. destruct c as [[] [] [] [] [] [] [] []]; intros H; try reflexivity; discriminate H. Qed.

Section EncodeUrl.

Variable stays : ascii -> bool.

Lemma encodeUrl_fuel_output (fuel : nat) :
  (forall c, stays c = true -> is_url_output c = true) ->
  forall url : string, all_chars is_url_output (encodeUrl_fuel stays fuel url) = true.
Proof.
  intros Hst. induction fuel as [|fuel IH]; intros url; [reflexivity|].
  cbn [encodeUrl_fuel]. destruct url as [|c rest]; [reflexivity|].
  destruct (Ascii.eqb_spec c "%") as [-> | Hc].
  - destruct rest as [|d1 rest1]; [reflexivity|].
    destruct (is_hex d1) eqn:H1; cbn [negb].
    + destruct rest1 as [|d2 rest2].
      * cbn [all_chars]. now rewrite IH.
      * destruct (is_hex d2) eqn:H2; cbn [negb].
        -- cbn [all_chars]. now rewrite IH.
        -- rewrite !all_chars_app. cbn [all_chars].
           rewrite (is_hex_output d1 H1), encodeURI_char_output, IH. reflexivity.
    + rewrite !all_chars_app, encodeURI_char_output, IH. reflexivity.
  - destruct (stays c) eqn:Hs.
    + cbn [all_chars]. now rewrite (Hst c Hs), IH.
    + now rewrite all_chars_app, encodeURI_char_output, IH.
Qed.

Lemma encodeUrl_fuel_keeps (fuel : nat) :
  (forall c, is_uri_char c = true -> stays c = true \/ encodeURI_char c = String c "") ->
  forall url : string,
    String.length url < fuel -> all_chars is_uri_char url = true ->
    encodeUrl_fuel stays fuel url = url.
Proof.
  intros Hst. induction fuel as [|fuel IH]; intros url Hlen Hs; [lia|].
  destruct url as [|c rest]; [reflexivity|].
  cbn [all_chars] in Hs. apply andb_prop in Hs as [Hc Hs].
  cbn [String.length] in Hlen. cbn [encodeUrl_fuel].
  assert (Hp : Ascii.eqb c "%" = false).
  { destruct (Ascii.eqb_spec c "%") as [-> | _]; [discriminate Hc | reflexivity]. }
  rewrite Hp, (IH rest) by (assumption || lia).
  destruct (stays c) eqn:E; [reflexivity|].
  destruct (Hst c Hc) as [H | ->]; [congruence | reflexivity].
Qed.

End EncodeUrl.

Lemma uri_char_stays (c : ascii) :
  is_uri_char c = true -> encodeUrl_stays c = true \/ encodeURI_char c = String c "".
Proof.
  destruct c as [[] [] [] [] [] [] [] []]; intros H; try discriminate H;
    first [left; reflexivity | right; reflexivity].
Qed.

Lemma uri_char_stays_2 (c : ascii) :
  is_uri_char c = true -> encodeUrl_stays_2 c = true \/ encodeURI_char c = String c "".
Proof.
  destruct c as [[] [] [] [] [] [] [] []]; intros H; try discriminate H;
    first [left; reflexivity | right; reflexivity].
Qed.

(** Where encodeurl 2.0.0 lets a character stay that 1.0.2 does not, the
    character is one of the three, or [encodeURI] keeps it anyway. *)
Lemma stays_agree (c : ascii) (r : string) :
  is_backslash_caret_or_bar c = false ->
  (if encodeUrl_stays_2 c then String c r else encodeURI_char c ++ r)
  = (if encodeUrl_stays c then String c r else encodeURI_char c ++ r).
Proof. destruct c as [[] [] [] [] [] [] [] []]; intros H; try discriminate H; reflexivity. Qed.

Lemma encodeUrl_fuel_agree (fuel : nat) : forall url : string,
  all_chars (fun c => negb (is_backslash_caret_or_bar c)) url = true ->
  encodeUrl_fuel encodeUrl_stays_2 fuel url = encodeUrl_fuel encodeUrl_stays fuel url.
Proof.
  induction fuel as [|fuel IH]; intros url Hs; [reflexivity|].
  destruct url as [|c rest]; [reflexivity|].
  cbn [all_chars] in Hs. apply andb_prop in Hs as [Hc Hs]. apply negb_true_iff in Hc.
  cbn [encodeUrl_fuel]. destruct (Ascii.eqb c "%").
  - destruct rest as [|d1 rest1]; [reflexivity|].
    cbn [all_chars] in Hs. apply andb_prop in Hs as [Hd1 Hs1].
    destruct (negb (is_hex d1)); [now rewrite IH|].
    destruct rest1 as [|d2 rest2].
    + rewrite IH; [reflexivity | cbn [all_chars]; now rewrite Hd1].
    + cbn [all_chars] in Hs1. apply andb_prop in Hs1 as [Hd2 Hs2].
      destruct (negb (is_hex d2)); [now rewrite IH|].
      rewrite IH; [reflexivity | cbn [all_chars]; now rewrite Hd1, Hd2, Hs2].
  - rewrite (IH rest Hs). apply stays_agree, Hc.
Qed.

Lemma encodeUrl_output (url : string) : all_chars is_url_output (encodeUrl url) = true.
Proof. apply encodeUrl_fuel_output, stays_output. Qed.

Lemma url_output_no_line_feed (c : ascii) :
  is_url_output c = true -> negb (is_line_feed c) = true.
Proof. destruct c as [[] [] [] [] [] [] [] []]; intros H; try reflexivity; discriminate H. Qed.

Lemma escape_char_no_markup (c : ascii) :
  all_chars (fun x => negb (is_markup x)) (escapeHtml (String c "")) = true.
Proof. destruct c as [[] [] [] [] [] [] [] []]; reflexivity. Qed.

Lemma escape_char_no_line_feed (c : ascii) :
  negb (is_line_feed c) = true ->
  all_chars (fun x => negb (is_line_feed x)) (escapeHtml (String c "")) = true.
Proof. destruct c as [[] [] [] [] [] [] [] []]; intros H; try reflexivity; discriminate H. Qed.

Lemma escapeHtml_no_markup (s : string) :
  all_chars (fun x => negb (is_markup x)) (escapeHtml s) = true.
Proof.
  induction s as [|c s IH]; [reflexivity|].
  now rewrite escapeHtml_cons, all_chars_app, escape_char_no_markup, IH.
Qed.

Lemma escapeHtml_no_line_feed (s : string) :
  all_chars (fun x => negb (is_line_feed x)) s = true ->
  all_chars (fun x => negb (is_line_feed x)) (escapeHtml s) = true.
Proof.
  induction s as [|c s IH]; [reflexivity|]. cbn [all_chars].
  intros H. apply andb_prop in H as [Hc Hs].
  now rewrite escapeHtml_cons, all_chars_app, (escape_char_no_line_feed c Hc), IH.
Qed.

Lemma replace_newlines_id (s : string) :
  all_chars (fun x => negb (is_line_feed x)) s = true -> replace_newlines s = s.
Proof.
  induction s as [|c s IH]; [reflexivity|]. cbn [all_chars replace_newlines].
  intros H. apply andb_prop in H as [Hc Hs].
  unfold is_line_feed in Hc. apply negb_true_iff in Hc. rewrite Hc. now rewrite IH.
Qed.

Lemma replace_double_spaces_no_markup (n : nat) : forall s : string,
  String.length s <= n ->
  all_chars (fun x => negb (is_markup x)) s = true ->
  all_chars (fun x => negb (is_markup x)) (replace_double_spaces s) = true.
Proof.
  induction n as [|n IH]; intros s Hlen H.
  - destruct s; [reflexivity | cbn in Hlen; lia].
  - destruct s as [|c s]; [reflexivity|].
    cbn [String.length] in Hlen. cbn [all_chars] in H. apply andb_prop in H as [Hc Hs].
    rewrite replace_double_spaces_cons.
    destruct (Ascii.eqb c " ").
    + destruct s as [|c' s']; [cbn [all_chars]; now rewrite Hc|].
      cbn [String.length] in Hlen. cbn [all_chars] in Hs. apply andb_prop in Hs as [Hc' Hs'].
      destruct (Ascii.eqb c' " ").
      * rewrite all_chars_app. rewrite (IH s') by (assumption || lia). reflexivity.
      * cbn [all_chars]. rewrite Hc. rewrite (IH (String c' s')); [reflexivity | cbn; lia |].
        cbn [all_chars]. now rewrite Hc', Hs'.
    + cbn [all_chars]. rewrite Hc. now rewrite (IH s) by (assumption || lia).
Qed.

Lemma error_message_no_markup (req : Req) :
  all_chars (fun c => negb (is_line_feed c)) (method req) = true ->
  all_chars (fun c => negb (is_markup c)) (error_message req) = true.
Proof.
  intros Hm. unfold error_message.
  rewrite replace_newlines_id.
  - apply (replace_double_spaces_no_markup _ _ (le_n _)), escapeHtml_no_markup.
  - apply escapeHtml_no_line_feed. rewrite !all_chars_app, Hm.
    rewrite (all_chars_weaken _ _ _ url_output_no_line_feed (encodeUrl_output (path req))).
    reflexivity.
Qed.

(** X8.  Nothing of the request reaches the 404 page as markup: the page is
    the fixed head, the message and the fixed foot, and the message has
    none of the characters [<], [>], double quote and single quote, for
    any path at all and any method without a line feed. *)
Theorem not_found_page_reflects_no_markup (g : string) (req : Req) (c : Console) :
  unrouted req -> method req <> "HEAD" ->
  all_chars (fun x => negb (is_line_feed x)) (method req) = true ->
  exists res,
    app_handle (hello_app g) req c = Some (res, c)
    /\ body res = page_head ++ error_message req ++ page_foot
    /\ all_chars (fun x => negb (is_markup x)) (error_message req) = true.
Proof.
  intros Hu Hh Hm. rewrite hello_handle_answer.
  destruct (hello_cases g req) as [[_ ->] | [(Hr & _) | (Hr & _)]]; try contradiction.
  eexists. split; [reflexivity|]. split; [|now apply error_message_no_markup].
  unfold not_found_response. cbn [body]. apply String.eqb_neq in Hh. rewrite Hh.
  apply not_found_page_parts.
Qed.

(** X13.  [encodeUrl], in the version of encodeurl 1.0.2 as in that of
    2.0.0, writes visible ASCII only and none of the angle brackets, the
    double quote, the backquote and the braces; it leaves a string of URI
    characters (letters, digits, unreserved marks and reserved delimiters)
    as it is; and the two versions give the same on every URL without
    backslash, caret and bar, which 1.0.2 escapes and 2.0.0 lets through. *)
Theorem encodeUrl_is_safe_and_keeps_clean_paths (url : string) :
  all_chars is_url_output (encodeUrl url) = true
  /\ all_chars is_url_output (encodeUrl_2 url) = true
  /\ (all_chars is_uri_char url = true -> encodeUrl url = url /\ encodeUrl_2 url = url)
  /\ (all_chars (fun c => negb (is_backslash_caret_or_bar c)) url = true ->
      encodeUrl_2 url = encodeUrl url)
  /\ encodeUrl "/a^b|c\d" = "/a%5Eb%7Cc%5Cd"
  /\ encodeUrl_2 "/a^b|c\d" = "/a^b|c\d".
Proof.
  split; [apply encodeUrl_fuel_output, stays_output|].
  split; [apply encodeUrl_fuel_output, stays_2_output|].
  split; [|split; [|split; reflexivity]].
  - intros Hs. split.
    + apply encodeUrl_fuel_keeps; [exact uri_char_stays | unfold lt; apply le_n | exact Hs].
    + apply encodeUrl_fuel_keeps; [exact uri_char_stays_2 | unfold lt; apply le_n | exact Hs].
  - intros Hs. now apply encodeUrl_fuel_agree.
Qed.

(** ** The header store *)

Lemma get_in_set_in (n n' v : string) (hs : list (string * string)) :
  toLowerCase n' = toLowerCase n -> get_in n' (set_in n v hs) = Some v.
Proof.
  intros E. induction hs as [|[m w] hs IH]; cbn [set_in get_in].
  - now rewrite E, String.eqb_refl.
  - destruct (toLowerCase m =? toLowerCase n) eqn:Hm; cbn [get_in].
    + now rewrite E, String.eqb_refl.
    + rewrite E, Hm. exact IH.
Qed.

Lemma get_in_set_in_other (n m v : string) (hs : list (string * string)) :
  toLowerCase m <> toLowerCase n -> get_in m (set_in n v hs) = get_in m hs.
Proof.
  intros Hne. induction hs as [|[k w] hs IH]; cbn [set_in get_in].
  - apply String.eqb_neq in Hne. rewrite String.eqb_sym. now rewrite Hne.
  - destruct (toLowerCase k =? toLowerCase n) eqn:Hk; cbn [get_in].
    + apply String.eqb_eq in Hk. rewrite Hk.
      apply String.eqb_neq in Hne. rewrite String.eqb_sym. now rewrite Hne.
    + now rewrite IH.
Qed.

Lemma get_in_filter (n n' : string) (hs : list (string * string)) :
  toLowerCase n' = toLowerCase n ->
  get_in n' (List.filter (fun nv => negb (toLowerCase (fst nv) =? toLowerCase n)) hs) = None.
Proof.
  intros E. induction hs as [|[m w] hs IH]; [reflexivity|]. cbn [List.filter fst].
  destruct (toLowerCase m =? toLowerCase n) eqn:Hm; cbn [negb]; [exact IH|].
  cbn [get_in]. now rewrite E, Hm.
Qed.

Lemma get_in_filter_other (n m : string) (hs : list (string * string)) :
  toLowerCase m <> toLowerCase n ->
  get_in m (List.filter (fun nv => negb (toLowerCase (fst nv) =? toLowerCase n)) hs)
  = get_in m hs.
Proof.
  intros Hne. induction hs as [|[k w] hs IH]; [reflexivity|]. cbn [List.filter fst].
  destruct (toLowerCase k =? toLowerCase n) eqn:Hk; cbn [negb get_in].
  - apply String.eqb_eq in Hk. rewrite Hk.
    apply String.eqb_neq in Hne. rewrite String.eqb_sym, Hne. exact IH.
  - now rewrite IH.
Qed.

Lemma set_in_names (n v : string) (hs : list (string * string)) :
  map (fun nv => toLowerCase (fst nv)) (set_in n v hs)
  = match get_in n hs with
    | Some _ => map (fun nv => toLowerCase (fst nv)) hs
    | None => (map (fun nv => toLowerCase (fst nv)) hs ++ [toLowerCase n])%list
    end.
Proof.
  induction hs as [|[k w] hs IH]; [reflexivity|]. cbn [set_in get_in].
  destruct (toLowerCase k =? toLowerCase n) eqn:Hk.
  - apply String.eqb_eq in Hk. cbn [map fst]. now rewrite Hk.
  - cbn [map fst]. rewrite IH. now destruct (get_in n hs).
Qed.

Lemma get_in_none (n : string) (hs : list (string * string)) :
  get_in n hs = None -> ~ In (toLowerCase n) (map (fun nv => toLowerCase (fst nv)) hs).
Proof.
  induction hs as [|[k w] hs IH]; [intros _ []|]. cbn [get_in map fst].
  destruct (toLowerCase k =? toLowerCase n) eqn:Hk; [discriminate|].
  intros H [E | Hin]; [|exact (IH H Hin)].
  apply String.eqb_neq in Hk. congruence.
Qed.

(** X11.  The header store of a response that has not been ended: setting
    a header under a token, to a value without control characters, passes
    Node's checks, and so does removing it; the header is read back under
    every spelling of the name that differs in case only, and is gone after
    [removeHeader]; headers of other names are untouched by both; setting a
    header keeps the names distinct.  Once the response is ended both are
    refused with [ERR_HTTP_HEADERS_SENT]. *)
Theorem header_store_laws (res : Res) (n n' v : string) :
  finished res = false ->
  checkIsHttpToken n = true ->
  checkInvalidHeaderChar v = false ->
  toLowerCase n' = toLowerCase n ->
  checked_setHeader n v res = inr (setHeader n v res)
  /\ checked_removeHeader n res = inr (removeHeader n res)
  /\ getHeader n' (setHeader n v res) = Some v
  /\ getHeader n' (removeHeader n res) = None
  /\ (forall m, toLowerCase m <> toLowerCase n ->
        getHeader m (setHeader n v res) = getHeader m res
        /\ getHeader m (removeHeader n res) = getHeader m res)
  /\ (NoDup (map toLowerCase (header_names res)) ->
      NoDup (map toLowerCase (header_names (setHeader n v res))))
  /\ (forall chunk, checked_setHeader n v (res_end chunk res) = inl ERR_HTTP_HEADERS_SENT
                    /\ checked_removeHeader n (res_end chunk res) = inl ERR_HTTP_HEADERS_SENT).
Proof.
  intros Hf Hn Hv E.
  split; [unfold checked_setHeader; now rewrite Hf, Hn, Hv|].
  split; [unfold checked_removeHeader; now rewrite Hf|].
  unfold getHeader, setHeader, removeHeader, header_names. cbn [res_headers].
  split; [now apply get_in_set_in|]. split; [now apply get_in_filter|]. split; [|split].
  - intros m Hm. split; [now apply get_in_set_in_other | now apply get_in_filter_other].
  - rewrite !NoDup_ListNoDup, !map_map. rewrite set_in_names.
    destruct (get_in n (res_headers res)) eqn:Hg; [auto|].
    intros Hnd. apply List.NoDup_app; [exact Hnd | repeat constructor; intros [] |].
    intros x Hx [<- | []]. exact (get_in_none n _ Hg Hx).
  - intros chunk. split; reflexivity.
Qed.

(** ** The process of either program *)

Lemma hello_handle_respond (g : string) (req : Req) (c : Console) :
  app_handle (hello_app g) req c = Some (hello_respond g req, c).
Proof.
  unfold hello_respond. rewrite !hello_handle_answer.
  destruct (hello_cases g req) as [[_ ->] | [(_ & _ & ->) | (_ & _ & b & _ & ->)]];
    reflexivity.
Qed.

Lemma hello_step (g : string) (ev : Event) (s : Server) (c : Console) :
  srv_app s = hello_app g -> signal_listeners s = [] ->
  exists p', step ev (Running s c) = Some p'
    /\ console_of p' = c
    /\ match p' with
       | Running s' _ =>
           srv_app s' = hello_app g /\ port s' = port s /\ signal_listeners s' = []
       | Exited _ _ _ => True
       end.
Proof.
  intros Ha Hl. destruct ev as [req | | sig]; cbn [step].
  - eexists; repeat split; eauto.
  - destruct (inflight s) as [|req rest].
    + eexists; repeat split; eauto.
    + rewrite Ha, hello_handle_respond. eexists; repeat split; eauto.
  - rewrite Hl. eexists; repeat split; eauto.
Qed.

Lemma hello_run (g : string) (evs : list Event) : forall (s : Server) (c : Console),
  srv_app s = hello_app g -> signal_listeners s = [] ->
  exists p', run evs (Running s c) = Some p'
    /\ console_of p' = c
    /\ match p' with
       | Running s' _ =>
           srv_app s' = hello_app g /\ port s' = port s /\ signal_listeners s' = []
       | Exited _ _ _ => True
       end.
Proof.
  induction evs as [|ev evs IH]; intros s c Ha Hl.
  - exists (Running s c). repeat split; auto.
  - cbn [run]. destruct (hello_step g ev s c Ha Hl) as (p1 & -> & Hc & Hp).
    destruct p1 as [s1 c1 | code rs c1]; cbn [console_of] in Hc; subst c1.
    + destruct Hp as (Ha1 & Hport & Hl1).
      destruct (IH s1 c Ha1 Hl1) as (p' & Hr & Hc' & Hp').
      exists p'. repeat split; auto.
      destruct p'; auto. destruct Hp' as (? & ? & ?). repeat split; congruence.
    + rewrite run_exited. eexists; repeat split; eauto.
Qed.

Lemma etag_sibling : etag Sibling.greeting = sibling_etag.
Proof. evaluate. Qed.

(** X9.  The sibling program binds the constant 5000, whatever the
    environment holds; when the bind succeeds it logs one line, which
    names 5000, and after any events that line is all it has logged and
    the server still runs the sibling's application on 5000. *)
Theorem sibling_listens_on_5000 (env : gmap string string) (os : Z -> option Errno)
    (evs : list Event) :
  Sibling.main env os =
    match os 5000%Z with
    | Some e => Some (inl e)
    | None => Some (inr (sibling_started, [sibling_line]))
    end
  /\ sibling_line = "Server is running on http://localhost:" ++ pretty (port sibling_started)
  /\ exists p, run evs (Running sibling_started [sibling_line]) = Some p
               /\ console_of p = [sibling_line]
               /\ match p with
                  | Running s _ => srv_app s = Sibling.app /\ port s = 5000%Z
                  | Exited _ _ _ => True
                  end.
Proof.
  split; [|split; [reflexivity|]].
  - unfold Sibling.main, app_listen. change Sibling.PORT with 5000%Z.
    destruct (os 5000%Z); reflexivity.
  - destruct (hello_run Sibling.greeting evs sibling_started [sibling_line] eq_refl eq_refl)
      as (p & Hr & Hc & Hp).
    exists p. split; [exact Hr|]. split; [exact Hc|].
    destruct p; [|exact I]. destruct Hp as (Ha & Hport & _). now split.
Qed.

(** X10.  The sibling differs from [src/index.js] in the greeting only: it
    answers every request, identically to [src/index.js] when no route
    answers the request or the method is OPTIONS, and an unconditional
    [GET /] with 200 and its own greeting where [src/index.js] sends its
    own. *)
Theorem sibling_differs_in_greeting_only (req : Req) (c : Console) :
  exists r,
    app_handle Sibling.app req c = Some (r, c)
    /\ (unrouted req \/ method req = "OPTIONS" -> app_handle app req c = Some (r, c))
    /\ (method req = "GET" -> path req = "/" -> conditional req = false ->
        r = sibling_ok /\ body r = Sibling.greeting
        /\ app_handle app req c = Some (ok_response false, c)).
Proof.
  change Sibling.app with (hello_app Sibling.greeting).
  change app with (hello_app greeting).
  rewrite !hello_handle_answer.
  destruct (hello_cases Sibling.greeting req) as [[Hu ->] | [(Hr & Hm & ->) | (Hr & Hh & b & Hb & ->)]].
  - eexists. split; [reflexivity|]. split.
    + intros _. destruct (hello_cases greeting req) as [[_ ->] | [(Hr & _) | (Hr & _)]];
        [reflexivity | contradiction | contradiction].
    + intros Hm Hp _. exfalso. destruct Hu as [[Hu _] | (Hu & _)]; [congruence|].
      rewrite Hm in Hu. now apply Hu.
  - eexists. split; [reflexivity|]. split.
    + intros _. destruct (hello_cases greeting req) as [[Hu _] | [(_ & _ & ->) | (_ & Hh & _)]];
        [contradiction | reflexivity | rewrite Hm in Hh; discriminate].
    + intros Hg. congruence.
  - eexists. split; [reflexivity|]. split.
    + intros [Hu | Ho]; [contradiction | rewrite Ho in Hh; discriminate].
    + intros Hm Hp Hc.
      assert (Hf : forall g, is_fresh req g = Some false).
      { intros g. unfold is_fresh. rewrite Hm.
        change (negb ("GET" =? "GET") && negb ("GET" =? "HEAD")) with false. cbv iota.
        now apply fresh_unconditional. }
      rewrite Hf in Hb. injection Hb as <-. rewrite Hm.
      change ("GET" =? "HEAD") with false.
      split; [unfold hello_ok, sibling_ok; now rewrite etag_sibling|].
      split; [reflexivity|].
      destruct (hello_cases greeting req) as [[Hu _] | [(_ & Ho & _) | (_ & _ & b & Hb' & ->)]];
        [contradiction | congruence |].
      rewrite Hf in Hb'. injection Hb' as <-. rewrite Hm.
      change ("GET" =? "HEAD") with false.
      unfold hello_ok, ok_response. now rewrite etag_greeting.
Qed.

(** ** The properties on requests of the scenarios *)

Lemma revalidation_is_not_modified_witness :
  app_handle (hello_app greeting) revalidating_head [] = Some (hello_not_modified greeting, [])
  /\ statusCode (hello_not_modified greeting) = 304%Z
  /\ body (hello_not_modified greeting) = ""
  /\ getHeader "ETag" (hello_not_modified greeting) = Some (etag greeting).
Proof.
  apply (revalidation_is_not_modified greeting revalidating_head [] 1
           [other_tag; etag greeting]).
  - right. reflexivity.
  - reflexivity.
  - right. split; [evaluate|]. split; [right; left; reflexivity|].
    repeat constructor; evaluate.
  - evaluate.
  - evaluate.
Defined.

Lemma no_cache_forces_full_response_witness :
  app_handle (hello_app greeting) reloading_get []
    = Some (hello_ok greeting (method reloading_get =? "HEAD"), [])
  /\ statusCode (hello_ok greeting (method reloading_get =? "HEAD")) = 200%Z
  /\ (method reloading_get = "GET" ->
      body (hello_ok greeting (method reloading_get =? "HEAD")) = greeting).
Proof.
  apply (no_cache_forces_full_response greeting reloading_get []).
  - left. reflexivity.
  - reflexivity.
  - evaluate.
Defined.

Lemma options_lists_get_and_head_witness :
  exists res allow,
    app_handle (hello_app Sibling.greeting) options_if_none_match [] = Some (res, [])
    /\ statusCode res = 200%Z
    /\ getHeader "Allow" res = Some allow
    /\ parseTokenList allow = ["GET"; "HEAD"]
    /\ body res = allow
    /\ getHeader "Content-Length" res = Some (pretty (String.length allow)).
Proof.
  apply (options_lists_get_and_head Sibling.greeting options_if_none_match []); reflexivity.
Defined.

Lemma status_follows_routing_witness :
  exists res,
    app_handle (hello_app greeting) post_root [] = Some (res, [])
    /\ finished res = true
    /\ (statusCode res = 200%Z \/ statusCode res = 304%Z \/ statusCode res = 404%Z)
    /\ (never_routed post_root -> statusCode res = 404%Z)
    /\ (path post_root = "/" ->
        method post_root = "GET" \/ method post_root = "HEAD" \/ method post_root = "OPTIONS" ->
        statusCode res = 200%Z \/ statusCode res = 304%Z).
Proof.
  apply (status_follows_routing greeting post_root []). discriminate.
Defined.

Lemma not_found_page_reflects_no_markup_witness :
  exists res,
    app_handle (hello_app greeting) get_script [] = Some (res, [])
    /\ body res = page_head ++ error_message get_script ++ page_foot
    /\ all_chars (fun x => negb (is_markup x)) (error_message get_script) = true.
Proof.
  apply (not_found_page_reflects_no_markup greeting get_script []).
  - left. split; intros H; vm_compute in H; discriminate.
  - intros H; vm_compute in H; discriminate.
  - evaluate.
Defined.

Lemma header_store_laws_witness :
  checked_setHeader "content-type" "text/plain" (send_headers greeting res0)
    = inr (setHeader "content-type" "text/plain" (send_headers greeting res0))
  /\ checked_removeHeader "content-type" (send_headers greeting res0)
    = inr (removeHeader "content-type" (send_headers greeting res0))
  /\ getHeader "CONTENT-TYPE" (setHeader "content-type" "text/plain" (send_headers greeting res0))
    = Some "text/plain"
  /\ getHeader "CONTENT-TYPE" (removeHeader "content-type" (send_headers greeting res0)) = None
  /\ (forall m, toLowerCase m <> toLowerCase "content-type" ->
        getHeader m (setHeader "content-type" "text/plain" (send_headers greeting res0))
          = getHeader m (send_headers greeting res0)
        /\ getHeader m (removeHeader "content-type" (send_headers greeting res0))
          = getHeader m (send_headers greeting res0))
  /\ (NoDup (map toLowerCase (header_names (send_headers greeting res0))) ->
      NoDup (map toLowerCase
               (header_names (setHeader "content-type" "text/plain"
                                (send_headers greeting res0)))))
  /\ (forall chunk,
        checked_setHeader "content-type" "text/plain" (res_end chunk (send_headers greeting res0))
          = inl ERR_HTTP_HEADERS_SENT
        /\ checked_removeHeader "content-type" (res_end chunk (send_headers greeting res0))
          = inl ERR_HTTP_HEADERS_SENT).
Proof.
  apply (header_store_laws (send_headers greeting res0) "content-type" "CONTENT-TYPE"
           "text/plain"); reflexivity.
Defined.

Lemma token_list_round_trip_witness :
  parseTokenList (join ("," ++ spaces 2) [other_tag; ""; "W/x"]) = [other_tag; ""; "W/x"].
Proof.
  apply (token_list_round_trip 2 [other_tag; ""; "W/x"]).
  - discriminate.
  - repeat constructor.
Defined.
